(** * Floatplane-Downloader: [Video.ts] and [prompts.ts]

    A shallow embedding of the video life cycle of the downloader
    (path formatting, download state derived from file sizes, delivery
    resolution, download and finalisation) and of two interactive
    prompts, followed by the properties proved about them.

    Conventions.
    - JavaScript numbers that hold byte counts, indices and date fields
      are integers; they are modelled by [Z] (or [nat] for indices).
    - JavaScript strings are modelled by [string]; every pattern the
      code searches for is plain ASCII.
    - [undefined] is [None].
    - The file system is a finite map from paths to sizes; the
      persisted video database is a finite map from guids to expected
      sizes.
    - Effects are recorded in a trace of events carried by the world
      state; a computation either returns a value or throws. *)

From Stdlib Require Import ZArith QArith Qround List Ascii Sorted.
From stdpp Require Import base decidable option list strings pretty gmap.

Local Open Scope Z_scope.

(** ** JavaScript built-ins used by the code *)

Module JS.

(** The double quote character, for messages that contain it. *)
Definition dquote : string := String "034"%char "".

(** Values whose truthiness the code tests. *)
Inductive value :=
| Undefined
| Bool (b : bool)
| Promise (settles_to : bool).

(** [ToBoolean]: an object, a promise included, is truthy. *)
Definition truthy (v : value) : bool :=
  match v with
  | Undefined => false
  | Bool b => b
  | Promise _ => true
  end.

(** [a || b] on such values. *)
Definition or (a b : value) : value := if truthy a then a else b.

(** [n === m] for a number [n] and a number-or-undefined [m]. *)
Definition strict_eq (n : Z) (m : option Z) : bool :=
  match m with
  | Some k => bool_decide (n = k)
  | None => false
  end.

(** Template-literal rendering of a number-or-undefined. *)
Definition show (m : option Z) : string :=
  match m with
  | Some k => pretty k
  | None => "undefined"
  end.

(** [s.startsWith(p)]. *)
Fixpoint starts_with (p s : string) : bool :=
  match p, s with
  | EmptyString, _ => true
  | String a p', String b s' => bool_decide (a = b) && starts_with p' s'
  | String _ _, EmptyString => false
  end.

Fixpoint drop (n : nat) (s : string) : string :=
  match n, s with
  | O, _ => s
  | S k, String _ s' => drop k s'
  | S _, EmptyString => EmptyString
  end.

Definition snoc (s : string) (a : ascii) : string := s +:+ String a "".

(** [GetSubstitution] for a match without capture groups: in the
    replacement text, [$$] stands for a dollar sign, [$&] for the
    matched text, [$`] for the text before the match and [$'] for the
    text after it; any other dollar sign stands for itself. *)
Fixpoint getSubstitution (matched before after replacement : string) : string :=
  match replacement with
  | EmptyString => EmptyString
  | String a r =>
      if bool_decide (a = "$"%char) then
        match r with
        | String c r' =>
            if bool_decide (c = "$"%char) then
              String "$" (getSubstitution matched before after r')
            else if bool_decide (c = "&"%char) then
              matched +:+ getSubstitution matched before after r'
            else if bool_decide (c = "`"%char) then
              before +:+ getSubstitution matched before after r'
            else if bool_decide (c = "'"%char) then
              after +:+ getSubstitution matched before after r'
            else String a (getSubstitution matched before after r)
        | EmptyString => String a EmptyString
        end
      else String a (getSubstitution matched before after r)
  end.

(** [s.replace(new RegExp(pat, 'g'), repl)] for a pattern [pat] that is
    plain text (no character of it is special in a regular
    expression): every match, found from left to right and never
    overlapping an earlier one, is replaced by its substitution.
    [before] is the input read so far and [skip] counts the characters
    of the current match that are still to be passed over. *)
Fixpoint replaceAll_go (pat repl before : string) (skip : nat) (s : string) : string :=
  match s with
  | EmptyString =>
      match pat with
      | EmptyString => getSubstitution pat before "" repl
      | _ => EmptyString
      end
  | String a s' =>
      match skip with
      | S k => replaceAll_go pat repl (snoc before a) k s'
      | O =>
          if starts_with pat s then
            getSubstitution pat before (drop (String.length pat) s) repl
            +:+ match String.length pat with
                | O => String a (replaceAll_go pat repl (snoc before a) O s')
                | S k => replaceAll_go pat repl (snoc before a) k s'
                end
          else String a (replaceAll_go pat repl (snoc before a) O s')
      end
  end.

Definition replaceAll (pat repl s : string) : string :=
  replaceAll_go pat repl "" 0 s.

(** [s.replace(pat, repl)] for a string pattern: only the first
    occurrence is replaced. *)
Fixpoint replace_go (pat repl before s : string) : string :=
  if starts_with pat s then
    getSubstitution pat before (drop (String.length pat) s) repl
    +:+ drop (String.length pat) s
  else
    match s with
    | EmptyString => EmptyString
    | String a s' => String a (replace_go pat repl (snoc before a) s')
    end.

Definition replace (pat repl s : string) : string := replace_go pat repl "" s.

(** [s.split(sep)] for a one-character separator. *)
Fixpoint split (sep : ascii) (s : string) : list string :=
  match s with
  | EmptyString => [EmptyString]
  | String a s' =>
      if bool_decide (a = sep) then EmptyString :: split sep s'
      else match split sep s' with
           | x :: xs => String a x :: xs
           | [] => [String a EmptyString]
           end
  end.

(** [l.join(sep)]. *)
Fixpoint join (sep : string) (l : list string) : string :=
  match l with
  | [] => EmptyString
  | [x] => x
  | x :: xs => x +:+ sep +:+ join sep xs
  end.

(** [l.slice(0, -1)] and [l.slice(-1)[0]]. *)
Definition init (l : list string) : list string := removelast l.
Definition last (l : list string) : string := List.last l EmptyString.

(** [l.includes(x)]. *)
Definition includes (x : string) (l : list string) : bool :=
  bool_decide (x ∈ l).

(** Stable sort with a comparator, as [Array.prototype.sort] performs
    it for a consistent comparator; a comparator result of [NaN]
    ([None]) counts as zero. *)
Definition cmp_sign (c : option Z) : Z := default 0 c.

Fixpoint insert_sorted {A} (cmp : A → A → option Z) (x : A) (l : list A) : list A :=
  match l with
  | [] => [x]
  | y :: ys =>
      if bool_decide (cmp_sign (cmp x y) ≤ 0) then x :: y :: ys
      else y :: insert_sorted cmp x ys
  end.

Definition sort {A} (cmp : A → A → option Z) (l : list A) : list A :=
  foldr (insert_sorted cmp) [] l.

End JS.

(** ** Data model *)

(** The fields of a [Date] the code reads, in local time; [getMonth] is
    zero-based and [getTime] is the epoch time in milliseconds. *)
Record Date := {
  getFullYear : Z;
  getMonth : Z;
  getDate : Z;
  getHours : Z;
  getMinutes : Z;
  getSeconds : Z;
  getTime : Z;
}.

Record Thumbnail := { thumbnail_path : string }.

(** The fields of a [BlogPost] the constructor reads; [bp_releaseDate]
    is the release date already parsed. *)
Record BlogPost := {
  bp_guid : string;
  bp_title : string;
  bp_text : string;
  bp_releaseDate : Date;
  bp_thumbnail : option Thumbnail;
  bp_attachmentOrder : list string;
  bp_videoAttachments : list string;
}.

Record Channel := { channel_title : string }.

Record Video := {
  guid : string;
  title : string;
  description : string;
  releaseDate : Date;
  thumbnail : option Thumbnail;
  videoAttachments : list string;
  channel : Channel;
}.

(** [new Video(video, channel)]. *)
Definition newVideo (video : BlogPost) (channel : Channel) : Video := {|
  guid := bp_guid video;
  videoAttachments :=
    filter (λ a, a ∈ bp_videoAttachments video) (bp_attachmentOrder video);
  title := bp_title video;
  description := bp_text video;
  releaseDate := bp_releaseDate video;
  thumbnail := bp_thumbnail video;
  channel := channel;
|}.

(** The settings the code consults. *)
Record Settings := {
  filePathFormatting : string;
  considerAllNonPartialDownloaded : bool;
  artworkSuffix : string;
  extras_downloadArtwork : bool;
  extras_saveNfo : bool;
  floatplane_downloadEdge : string;
  postProcessingCommand : string;
}.

(** A delivery ticket, as [fApi.cdn.delivery] returns it. *)
Record Edge := { hostname : string }.
Record QualityLevel := { quality_name : string }.
Record CdnInfo := {
  edges : option (list Edge);
  resource_uri : string;
  resource_token : string;
  resource_qualityLevels : list QualityLevel;
}.

(** What the code takes from outside this repository: the settings and
    command-line arguments, the libraries [sanitize-filename],
    [@inrixia/helpers] ([nPad]), [html-to-text] and [xmlbuilder], the
    regular expression that reads season and episode off a path, the
    conversion of a string to a number (unary [+]; [None] is [NaN]), the
    remote API, the random number generator (the draw of the given loop
    iteration) and the transcoder (from its arguments and the files on
    disk to the files it leaves and, when it fails, the error message
    and its standard error). *)
Record Env := {
  settings : Settings;
  args_headless : bool;
  sanitize : string → string;
  nPad : Z → string;
  htmlToText : string → string;
  xml_end : string → list (string * string) → string;
  season_episode_exec : string → option (string * string);
  to_number : string → option Z;
  cdn_delivery : string → string → CdnInfo;
  math_random : nat → Q;
  ffmpeg : list string → gmap string N → gmap string N * option (string * string);
}.

(** Errors that the code throws. *)
Inductive exn :=
| Error (message : string)
| TypeError (message : string).

(** The observable effects. *)
Inductive event :=
| Mkdir (path : string)
| StreamToFile (url file : string)
| WriteFile (path content : string)
| Utimes (path : string) (mtime : Date)
| Unlink (path : string)
| CdnDelivery (kind attachment : string)
| OnceDownloadProgress (url : string)
| ExecFile (file : string) (args : list string)
| MarkVideoCompleted (guid : string) (time : Z).

(** The world: the sizes of the regular files on disk, by path, the
    expected sizes the channel persists per guid, and the effects so far
    (oldest first). Folders are not part of it. *)
Record World := {
  files : gmap string N;
  videoDB : gmap string Z;
  trace : list event;
}.

(** ** Path formatter and state tracker *)

Section VideoState.

Variable env : Env.

(** [formatLookup], in the order of its keys. *)
Definition formatLookup (v : Video) : list (string * string) := [
  ("%channelTitle%", channel_title (channel v));
  ("%year%", pretty (getFullYear (releaseDate v)));
  ("%month%", nPad env (getMonth (releaseDate v) + 1));
  ("%day%", nPad env (getDate (releaseDate v)));
  ("%hour%", nPad env (getHours (releaseDate v)));
  ("%minute%", nPad env (getMinutes (releaseDate v)));
  ("%second%", nPad env (getSeconds (releaseDate v)));
  ("%videoTitle%",
    JS.replaceAll "\" " " (JS.replaceAll "/" " " (JS.replaceAll " - " " " (title v))))
].

Definition formatString (v : Video) (str : string) : string :=
  foldl (λ str '(match_, value), JS.replaceAll match_ value str)
        str (formatLookup v).

Definition fullPath (v : Video) : string :=
  formatString v (filePathFormatting (settings env)).

Definition folderPath (v : Video) : string :=
  JS.join "/" (JS.init (JS.split "/" (fullPath v))).

Definition filePath (v : Video) : string :=
  folderPath v +:+ "/" +:+ sanitize env (JS.last (JS.split "/" (fullPath v))).

(** The suffix of a part's file when the video has several parts. *)
Definition multiPartSuffix (v : Video) (attachmentIndex : nat) : string :=
  if bool_decide (length (videoAttachments v) ≠ 1%nat)
  then " - Part " +:+ pretty (attachmentIndex + 1)%nat
  else "".

(** Modelled from the spec: [Channel.lookupVideoDB], of which the
    source has only the callers; it gives the persisted record of a
    guid, whose [expectedSize] can be read and written and is absent
    until it is set. *)
Definition expectedSize (w : World) (v : Video) : option Z :=
  videoDB w !! guid v.

(** The setter of [expectedSize], on the same record. *)
Definition set_expectedSize (v : Video) (expectedSize : option Z) (w : World) : World :=
  {| files := files w;
     videoDB := match expectedSize with
                | Some n => <[guid v := n]> (videoDB w)
                | None => delete (guid v) (videoDB w)
                end;
     trace := trace w |}.

(** [Video.getFileBytes]: the size of a file, [-1] when [fs.stat]
    fails. *)
Definition getFileBytes (fs : gmap string N) (path : string) : Z :=
  match fs !! path with
  | Some size => Z.of_N size
  | None => -1
  end.

Definition partFile (v : Video) (i : nat) (extension : string) : string :=
  filePath v +:+ multiPartSuffix v i +:+ "." +:+ extension.

(** The indices [for (const i in this.videoAttachments)] runs over. *)
Definition indices (v : Video) : list nat := seq 0 (length (videoAttachments v)).

Definition fileBytes (fs : gmap string N) (v : Video) (extension : string) : Z :=
  foldl (λ bytes i, bytes + getFileBytes fs (partFile v i extension)) 0 (indices v).

Definition isMuxed (w : World) (v : Video) : bool :=
  let fileBytes := fileBytes (files w) v "mp4" in
  if considerAllNonPartialDownloaded (settings env)
  then negb (bool_decide (fileBytes = -1))
  else JS.strict_eq fileBytes (expectedSize w v).

Definition isDownloaded (w : World) (v : Video) : bool :=
  isMuxed w v || JS.strict_eq (fileBytes (files w) v "partial") (expectedSize w v).

End VideoState.

(** ** A state and error monad for the effectful operations *)

Definition M (A : Type) : Type := World → World * (exn + A).

#[export] Instance M_ret : MRet M := λ A a w, (w, inr a).

#[export] Instance M_bind : MBind M := λ A B f m w,
  match m w with
  | (w', inr a) => f a w'
  | (w', inl e) => (w', inl e)
  end.

#[export] Instance M_throw : MThrow exn M := λ A e w, (w, inl e).

Definition get : M World := λ w, (w, inr w).

Definition modify (f : World → World) : M unit := λ w, (f w, inr ()).

Definition emit (e : event) : M unit :=
  modify (λ w, {| files := files w; videoDB := videoDB w; trace := trace w ++ [e] |}).

Definition set_files (fs : gmap string N) : M unit :=
  modify (λ w, {| files := fs; videoDB := videoDB w; trace := trace w |}).

(** Unfolds the monad's operations in a goal. *)
Ltac run_M :=
  cbv beta iota zeta delta
    [mbind M_bind mret M_ret mthrow M_throw get emit set_files modify
     files videoDB trace].

(** A loop over a list whose body returns nothing. *)
Fixpoint for_each {A} (l : list A) (body : A → M unit) : M unit :=
  match l with
  | [] => mret ()
  | x :: xs => body x;; for_each xs body
  end.

(** [fs.writeFile], [fs.utimes] and [fs.unlink]: the last two fail on a
    file that does not exist. *)
Definition writeFile (path content : string) : M unit :=
  emit (WriteFile path content);;
  w ← get;
  set_files (<[path := N.of_nat (String.length content)]> (files w)).

Definition enoent (syscall path : string) : exn :=
  Error ("ENOENT: no such file or directory, " +:+ syscall +:+ " '" +:+ path +:+ "'").

Definition eexist (syscall path : string) : exn :=
  Error ("EEXIST: file already exists, " +:+ syscall +:+ " '" +:+ path +:+ "'").

Definition enotdir (syscall path : string) : exn :=
  Error ("ENOTDIR: not a directory, " +:+ syscall +:+ " '" +:+ path +:+ "'").

(** The folders above a path, as the path is written: its prefixes
    that end before a slash, the empty one left out. *)
Fixpoint ancestors_go (before s : string) : list string :=
  match s with
  | EmptyString => []
  | String a s' =>
      (if bool_decide (a = "/"%char) && negb (bool_decide (before = ""))
       then [before] else [])
      ++ ancestors_go (JS.snoc before a) s'
  end.

Definition ancestors (path : string) : list string := ancestors_go "" path.

(** [fs.mkdir(path, { recursive: true })]: it fails on the empty path,
    on a path below a file and on a path that is a file; a folder that
    exists already is no error. *)
Definition mkdir (path : string) : M unit :=
  w ← get;
  if bool_decide (path = "") then mthrow (enoent "mkdir" path)
  else if bool_decide (Exists (λ above, is_Some (files w !! above)) (ancestors path))
  then mthrow (enotdir "mkdir" path)
  else if bool_decide (is_Some (files w !! path)) then mthrow (eexist "mkdir" path)
  else emit (Mkdir path).

Definition utimes (path : string) (mtime : Date) : M unit :=
  w ← get;
  match files w !! path with
  | Some _ => emit (Utimes path mtime)
  | None => mthrow (enoent "utime" path)
  end.

Definition unlink (path : string) : M unit :=
  w ← get;
  match files w !! path with
  | Some _ => emit (Unlink path);; set_files (delete path (files w))
  | None => mthrow (enoent "unlink" path)
  end.

(** ** Delivery resolver, download orchestrator and finaliser *)

Section VideoOperations.

Variable env : Env.

(** [l[i]] for a number [i]; out of range it is [undefined]. *)
Definition at_index {A} (l : list A) (i : Z) : option A :=
  if bool_decide (0 ≤ i) then l !! Z.to_nat i else None.

(** The comparator [(a, b) => +b - +a]. *)
Definition by_number_descending (a b : string) : option Z :=
  match to_number env b, to_number env a with
  | Some nb, Some na => Some (nb - na)
  | _, _ => None
  end.

(** [qualityLevels.map((quality) => quality.name)]. *)
Definition quality_names (cdnInfo : CdnInfo) : list string :=
  map quality_name (resource_qualityLevels cdnInfo).

Definition availableQualities (cdnInfo : CdnInfo) : list string :=
  JS.sort by_number_descending (quality_names cdnInfo).

(** The quality to download; [None] is [undefined]. *)
Definition downloadQuality (cdnInfo : CdnInfo) (quality : string) : option string :=
  if JS.includes quality (availableQualities cdnInfo)
  then Some quality
  else head (availableQualities cdnInfo).

(** One iteration of the loop over the attachments; it returns the
    request it started, named by its URL. *)
Definition download_part (v : Video) (quality : string) (i : nat) (attachment : string)
  : M string :=
  emit (CdnDelivery "download" attachment);;
  let cdnInfo := cdn_delivery env "download" attachment in
  match edges cdnInfo with
  | None => mthrow (Error "No edges found for video")
  | Some edges =>
      let picked :=
        at_index edges (Qfloor (math_random env i * inject_Z (Z.of_nat (length edges)))) in
      downloadEdge ←
        (if bool_decide (floatplane_downloadEdge (settings env) ≠ "")
         then match picked with
              | Some _ => mret (Some {| hostname := floatplane_downloadEdge (settings env) |})
              | None => mthrow (TypeError "Cannot set properties of undefined (setting 'hostname')")
              end
         else mret picked);
      match downloadEdge with
      | None => mthrow (TypeError "Cannot read properties of undefined (reading 'hostname')")
      | Some downloadEdge =>
          let url :=
            "https://" +:+ hostname downloadEdge
            +:+ JS.replace "{token}" (resource_token cdnInfo)
                  (JS.replace "{qualityLevels}"
                     (default "undefined" (downloadQuality cdnInfo quality))
                     (resource_uri cdnInfo)) in
          emit (StreamToFile url (partFile env v i "partial"));;
          w ← get;
          (if expectedSize w v is None then emit (OnceDownloadProgress url) else mret ());;
          mret url
      end
  end.

Definition nfo (v : Video) : string :=
  let '(season, episode) := default ("", "") (season_episode_exec env (fullPath env v)) in
  xml_end env "episodedetails" [
    ("title", title v);
    ("showtitle", channel_title (channel v));
    ("description", htmlToText env (description v));
    ("plot", htmlToText env (description v));
    ("aired", pretty (getFullYear (releaseDate v)) +:+ "-"
              +:+ nPad env (getMonth (releaseDate v) + 1) +:+ "-"
              +:+ nPad env (getDate (releaseDate v)));
    ("season", season);
    ("episode", episode)
  ].

(** [download(quality)]: the requests it started, in the order of the
    attachments. Its second parameter, [allowRangeQuery], is read only
    by code that is commented out. Transfers run after it returns: what
    they write, and the handlers they call, are not part of it. *)
Definition download (v : Video) (quality : string) : M (list string) :=
  w ← get;
  if isDownloaded env w v then
    mthrow (Error ("Attempting to download " +:+ JS.dquote +:+ title v +:+ JS.dquote
                   +:+ " video already downloaded!"))
  else
    mkdir (folderPath env v);;
    match extras_downloadArtwork (settings env), thumbnail v with
    | true, Some thumbnail =>
        emit (StreamToFile (thumbnail_path thumbnail)
                (filePath env v +:+ artworkSuffix (settings env) +:+ ".png"))
    | _, _ => mret ()
    end;;
    (if extras_saveNfo (settings env) then
       writeFile (filePath env v +:+ ".nfo") (nfo v);;
       utimes (filePath env v +:+ ".nfo") (releaseDate v)
     else mret ());;
    mapM (λ '(i, attachment), download_part v quality i attachment)
         (imap pair (videoAttachments v)).

Definition markCompleted (v : Video) : M unit :=
  w ← get;
  if negb (isMuxed env w v) then
    mthrow (Error ("Cannot mark " +:+ title v
                   +:+ " as completed as video file size is not correct. Expected: "
                   +:+ JS.show (expectedSize w v) +:+ " bytes, Got: "
                   +:+ pretty (fileBytes env (files w) v "mp4") +:+ " bytes..."))
  else emit (MarkVideoCompleted (guid v) (getTime (releaseDate v))).

Definition ffmpegDesc (v : Video) : string := htmlToText env (description v).

Definition ffmpeg_file : string :=
  if args_headless env then "./ffmpeg" else "./db/ffmpeg".

Definition ffmpeg_args (v : Video) (i : nat) : list string := [
  "-i";
  partFile env v i "partial";
  "-metadata";
  "title=" +:+ title v +:+ multiPartSuffix v i;
  "-metadata";
  "AUTHOR=" +:+ channel_title (channel v);
  "-metadata";
  "YEAR=" +:+ pretty (getFullYear (releaseDate v));
  "-metadata";
  "date=" +:+ pretty (getFullYear (releaseDate v))
          +:+ nPad env (getMonth (releaseDate v) + 1)
          +:+ nPad env (getDate (releaseDate v));
  "-metadata";
  "description=" +:+ ffmpegDesc v;
  "-metadata";
  "synopsis=" +:+ ffmpegDesc v;
  "-c:a";
  "copy";
  "-c:v";
  "copy";
  partFile env v i "mp4"
].

(** One transcoder run; it returns how its promise settles: rejected
    with an error, or resolved. The runs of the parts, concurrent in
    the code, are taken one after the other. *)
Definition execFile_ffmpeg (v : Video) (i : nat) : M (option exn) :=
  emit (ExecFile ffmpeg_file (ffmpeg_args v i));;
  w ← get;
  let '(fs, error) := ffmpeg env (ffmpeg_args v i) (files w) in
  set_files fs;;
  mret (match error with
        | Some (message, stderr) => Some (Error (message +:+ stderr))
        | None => None
        end).

(** [await Promise.all(...)]: it throws the error of a rejected
    promise. *)
Definition await_all (outcomes : list (option exn)) : M unit :=
  match omap id outcomes with
  | e :: _ => mthrow e
  | [] => mret ()
  end.

(** [muxffmpegMetadata()]. The guard negates the promise that
    [isDownloaded()] returns, not the boolean it settles to. *)
Definition muxffmpegMetadata (v : Video) : M unit :=
  w ← get;
  if negb (JS.truthy (JS.Promise (isDownloaded env w v))) then
    mthrow (Error ("Cannot mux ffmpeg metadata for " +:+ title v
                   +:+ " as its not downloaded. Expected: "
                   +:+ JS.show (expectedSize w v) +:+ ", Got: "
                   +:+ pretty (fileBytes env (files w) v "partial") +:+ " bytes..."))
  else
    outcomes ← mapM (execFile_ffmpeg v) (indices v);
    await_all outcomes;;
    w ← get;
    modify (set_expectedSize v (Some (fileBytes env (files w) v "mp4")));;
    markCompleted v;;
    for_each (indices v) (λ i,
      unlink (partFile env v i "partial");;
      utimes (partFile env v i "mp4") (releaseDate v)).

End VideoOperations.

(** ** Interactive prompts ([prompts.ts]) *)

Module Prompts.

Record question := {
  type : string;
  name : string;
  message : string;
  initial : bool;
  active : string;
  inactive : string;
}.

Section Prompts.

(** The [prompts] library: from a question to the object of answers,
    keyed by the question's name. A toggle answers with a boolean;
    the key is missing when the prompt is aborted. *)
Variable prompts : question → gmap string bool.

(** [answers.key]. *)
Definition property (answers : gmap string bool) (key : string) : JS.value :=
  match answers !! key with
  | Some b => JS.Bool b
  | None => JS.Undefined
  end.

(** The questions asked. *)
Definition save_question (initial : bool) : question := {|
  type := "toggle";
  name := "save";
  message := "Save your login details?";
  initial := initial;
  active := "Yes";
  inactive := "No";
|}.

Definition findBestServer_question (initial : bool) : question := {|
  type := "toggle";
  name := "findBestServer";
  message := "Would you like to try find the best download server?";
  initial := initial;
  active := "Yes";
  inactive := "No";
|}.

(** The argument is [None] when the caller omits it. *)
Definition saveLoginDetails (initial : option bool) : JS.value :=
  let initial := default false initial in
  JS.or (property (prompts (save_question initial)) "save") (JS.Bool initial).

Definition findClosestServerNow (initial : option bool) : JS.value :=
  let initial := default true initial in
  JS.or (property (prompts (findBestServer_question initial)) "findBestServer")
        (JS.Bool initial).

(** What the user answered to a question: [false] for "No" and for
    an aborted prompt. *)
Definition answered (q : question) : bool :=
  default false (prompts q !! name q).

End Prompts.

End Prompts.

(** ** Reference quantities for the state tracker *)

Section StateQuantities.

Variable env : Env.

(** The size a part's file adds to the total of the files that exist. *)
Definition existing_size (fs : gmap string N) (path : string) : Z :=
  match fs !! path with
  | Some size => Z.of_N size
  | None => 0
  end.

(** Whether a part's file is absent, as a number. *)
Definition absent (fs : gmap string N) (path : string) : Z :=
  match fs !! path with
  | Some _ => 0
  | None => 1
  end.

Definition sum_over (f : nat → Z) (l : list nat) : Z :=
  foldr (λ i total, f i + total) 0 l.

(** Total size of the part files that exist. *)
Definition existing_total (fs : gmap string N) (v : Video) (extension : string) : Z :=
  sum_over (λ i, existing_size fs (partFile env v i extension)) (indices v).

(** Number of part files that are absent. *)
Definition absent_parts (fs : gmap string N) (v : Video) (extension : string) : Z :=
  sum_over (λ i, absent fs (partFile env v i extension)) (indices v).

End StateQuantities.

(** ** Reference notions for the choice of a quality *)

Section QualityNotions.

Variable env : Env.

(** A label that reads as a number. *)
Definition numeric (label : string) : Prop := is_Some (to_number env label).

Definition number_of (label : string) : Z := default 0 (to_number env label).

(** [best] is one of [labels] and no label reads as a greater number. *)
Definition highest (best : string) (labels : list string) : Prop :=
  best ∈ labels ∧ Forall (λ label, number_of label ≤ number_of best) labels.

(** The first label of a list reads as a number no other label of the
    list exceeds. *)
Definition head_bounds (l : list string) : Prop :=
  match l with
  | [] => True
  | h :: _ => Forall (λ label, number_of label ≤ number_of h) l
  end.

End QualityNotions.

(** ** Effects *)

(** A computation only adds events to the trace. *)
Definition extends {A} (m : M A) : Prop :=
  ∀ w, trace w `prefix_of` trace (fst (m w)).

(** ** Reference notions for the path formatter *)

(** [s] has no character [c]. *)
Fixpoint free_of (c : ascii) (s : string) : bool :=
  match s with
  | EmptyString => true
  | String a s' => negb (bool_decide (a = c)) && free_of c s'
  end.

(** The placeholder of a name. *)
Definition token (name : string) : string := String "%" (name +:+ "%").

(** A template read as text and tokens: a first text, then tokens
    [%name%], each followed by a text. *)
Fixpoint render (text : string) (tokens : list (string * string)) : string :=
  match tokens with
  | [] => text
  | (name, text') :: rest => text +:+ token name +:+ render text' rest
  end.

(** The value a table of placeholders gives a key. *)
Fixpoint assoc (key : string) (lookup : list (string * string)) : option string :=
  match lookup with
  | [] => None
  | (k, value) :: rest => if bool_decide (k = key) then Some value else assoc key rest
  end.

(** What stands for a token after substitution: the value of its
    placeholder, or the token itself when the table has no such
    placeholder. *)
Definition value_of (lookup : list (string * string)) (name : string) : string :=
  default (token name) (assoc (token name) lookup).

(** The template with every token substituted at once. *)
Fixpoint substituted (lookup : list (string * string))
    (text : string) (tokens : list (string * string)) : string :=
  match tokens with
  | [] => text
  | (name, text') :: rest =>
      text +:+ value_of lookup name +:+ substituted lookup text' rest
  end.

(** The texts that the substitution puts between a token, which [text]
    follows, and each of the tokens of [rest]. *)
Fixpoint between (lookup : list (string * string))
    (text : string) (rest : list (string * string)) : list string :=
  match rest with
  | [] => []
  | (name, text') :: rest' =>
      text :: between lookup (text +:+ value_of lookup name +:+ text') rest'
  end.

(** The texts that the substitution puts between any two tokens. *)
Fixpoint gaps (lookup : list (string * string)) (tokens : list (string * string))
  : list string :=
  match tokens with
  | [] => []
  | (_, text) :: rest => between lookup text rest ++ gaps lookup rest
  end.

(** The percent signs of the template are those of its tokens. *)
Definition well_formed (text : string) (tokens : list (string * string)) : bool :=
  free_of "%" text
  && forallb (λ '(name, text'), free_of "%" name && free_of "%" text') tokens.

(** No text between two tokens is the name of a placeholder of the
    table. *)
Definition separated (lookup : list (string * string))
    (tokens : list (string * string)) : bool :=
  forallb (λ gap, negb (bool_decide (token gap ∈ lookup.*1))) (gaps lookup tokens).

(** The values of the table have no percent and no dollar sign. *)
Definition plain_values (lookup : list (string * string)) : bool :=
  forallb (λ '(_, value), free_of "%" value && free_of "$" value) lookup.

(** The template after the tokens of one name have been given their
    value: each joins the texts around it. *)
Fixpoint pass (p value : string) (text : string) (tokens : list (string * string))
  : string * list (string * string) :=
  match tokens with
  | [] => (text, [])
  | (name, text') :: rest =>
      if bool_decide (name = p) then pass p value (text +:+ value +:+ text') rest
      else (text, (name, (pass p value text' rest).1) :: (pass p value text' rest).2)
  end.

(** Every key of the table is the placeholder of a name. *)
Definition placeholder_keys (lookup : list (string * string)) : Prop :=
  Forall (λ entry, ∃ p, entry.1 = token p ∧ free_of "%" p = true) lookup.

(** ** The post-processing hook *)

Section PostProcessing.

Variable env : Env.

(** The promisified [child_process.exec]: what running a command
    gives, a rejection or the standard output and standard error. *)
Variable exec : string → exn + (string * string).

(** The method [postProcessingCommand()]; its name is that of the
    setting it reads. *)
Definition postProcessing (v : Video) : exn + unit :=
  match exec (formatString env v (postProcessingCommand (settings env))) with
  | inl error => inl error
  | inr (stdout, stderr) =>
      if bool_decide (stderr ≠ "") then inl (Error stderr) else inr ()
  end.

End PostProcessing.

(** ** Reference notions for the further properties *)

Section MoreNotions.

Variable env : Env.

(** [a] may stand before [b] in a list sorted from the highest number
    down. *)
Definition descending (a b : string) : Prop :=
  number_of env b ≤ number_of env a.

(** The path of a request: the ticket's URI with the quality and the
    token filled in. *)
Definition request_path (cdnInfo : CdnInfo) (quality : string) : string :=
  JS.replace "{token}" (resource_token cdnInfo)
    (JS.replace "{qualityLevels}"
       (default "undefined" (downloadQuality env cdnInfo quality))
       (resource_uri cdnInfo)).

(** A ticket with edges for an attachment, and a random number in
    range for its iteration. *)
Definition deliverable (i : nat) (attachment : string) : Prop :=
  (∃ es, edges (cdn_delivery env "download" attachment) = Some es ∧ es ≠ [])
  ∧ (0 <= math_random env i)%Q ∧ (math_random env i < 1)%Q.

(** A folder can be made at [path]: the path is not empty, and neither
    it nor a folder above it is a file. *)
Definition folder_can_be_made (fs : gmap string N) (path : string) : Prop :=
  path ≠ "" ∧ Forall (λ p, fs !! p = None) (path :: ancestors path).

(** The clean-up of one part, the body of the last loop of
    [muxffmpegMetadata]: the [.partial] file is removed and the [.mp4]
    file is stamped. *)
Definition cleanup (v : Video) (i : nat) : M unit :=
  unlink (partFile env v i "partial");;
  utimes (partFile env v i "mp4") (releaseDate v).

(** The events of the transcoder runs. *)
Definition transcoder_events (v : Video) : list event :=
  map (λ i, ExecFile (ffmpeg_file env) (ffmpeg_args env v i)) (indices v).

End MoreNotions.

(** No handler for the download progress is among the events. *)
Definition no_progress_handler (events : list event) : Prop :=
  ∀ url, OnceDownloadProgress url ∉ events.


(** ** Concrete inputs *)

Module Sample.

(** Stand-ins for the libraries: zero-padding to two digits, no
    change by [sanitize] and [htmlToText]. *)
Definition pad2 (n : Z) : string :=
  if bool_decide (0 ≤ n < 10) then "0" +:+ pretty n else pretty n.

Definition digit (a : ascii) : option Z :=
  Z.of_nat <$> Ascii.is_nat a.

(** Strings of decimal digits as numbers. *)
Fixpoint decimal_go (acc : Z) (s : string) : option Z :=
  match s with
  | EmptyString => Some acc
  | String a s' => d ← digit a; decimal_go (10 * acc + d) s'
  end.

Definition decimal (s : string) : option Z :=
  match s with
  | EmptyString => None
  | _ => decimal_go 0 s
  end.

Definition settings0 : Settings := {|
  filePathFormatting := "%channelTitle%/%videoTitle%";
  considerAllNonPartialDownloaded := false;
  artworkSuffix := "";
  extras_downloadArtwork := true;
  extras_saveNfo := true;
  floatplane_downloadEdge := "";
  postProcessingCommand := "";
|}.

Definition ticket (edges : option (list Edge)) : CdnInfo := {|
  edges := edges;
  resource_uri := "/video/{qualityLevels}.mp4?token={token}";
  resource_token := "tok";
  resource_qualityLevels :=
    [ {| quality_name := "1080" |}; {| quality_name := "720" |}; {| quality_name := "480" |} ];
|}.

(** A transcoder that fails when its input (the second argument) is
    missing and otherwise writes an output (the last argument) of the
    input's size. *)
Definition transcoder (args : list string) (fs : gmap string N)
  : gmap string N * option (string * string) :=
  match fs !! default "" (args !! 1%nat) with
  | Some size => (<[List.last args "" := size]> fs, None)
  | None => (fs, Some ("Command failed", ": No such file or directory"))
  end.

Definition env_with (s : Settings) (edges : option (list Edge)) : Env := {|
  settings := s;
  args_headless := false;
  sanitize := id;
  nPad := pad2;
  htmlToText := id;
  xml_end := λ root children,
    "<" +:+ root +:+ ">"
    +:+ foldr (λ '(tag, text) rest,
                 "<" +:+ tag +:+ ">" +:+ text +:+ "</" +:+ tag +:+ ">" +:+ rest)
              "" children
    +:+ "</" +:+ root +:+ ">";
  season_episode_exec := λ _, None;
  to_number := decimal;
  cdn_delivery := λ _ _, ticket edges;
  math_random := λ _, (1 # 2)%Q;
  ffmpeg := transcoder;
|}.

Definition env0 : Env := env_with settings0 (Some [ {| hostname := "edge01.example" |} ]).

(** The same with [considerAllNonPartialDownloaded] switched on. *)
Definition settings_all : Settings := {|
  filePathFormatting := "%channelTitle%/%videoTitle%";
  considerAllNonPartialDownloaded := true;
  artworkSuffix := "";
  extras_downloadArtwork := true;
  extras_saveNfo := true;
  floatplane_downloadEdge := "";
  postProcessingCommand := "";
|}.

Definition env_all : Env := env_with settings_all (Some [ {| hostname := "edge01.example" |} ]).

(** The same as [env0] with a ticket whose list of edges is empty. *)
Definition env_no_edge : Env := env_with settings0 (Some []).

Definition released : Date := {|
  getFullYear := 2021; getMonth := 4; getDate := 7;
  getHours := 18; getMinutes := 5; getSeconds := 0;
  getTime := 1620410700000;
|}.

Definition linus : Channel := {| channel_title := "Linus" |}.

Definition video_of (attachments : list string) : Video := {|
  guid := "g1";
  title := "Ep 1 - Intro";
  description := "<p>Intro</p>";
  releaseDate := released;
  thumbnail := None;
  videoAttachments := attachments;
  channel := linus;
|}.

Definition one_part : Video := video_of ["a1"].

(** A video of a channel whose title is itself a placeholder. *)
Definition placeholder_channel_video : Video := {|
  guid := "g2";
  title := "Ep 1 - Intro";
  description := "";
  releaseDate := released;
  thumbnail := None;
  videoAttachments := ["a1"];
  channel := {| channel_title := "%videoTitle%" |};
|}.

(** A video whose title has dollar signs. *)
Definition dollar_title_video : Video := {|
  guid := "g3";
  title := "Win $$$ now";
  description := "";
  releaseDate := released;
  thumbnail := None;
  videoAttachments := ["a1"];
  channel := linus;
|}.
Definition two_parts : Video := video_of ["a1"; "a2"].

Definition world_of (files : list (string * N)) (db : list (string * Z)) : World := {|
  files := list_to_map files;
  videoDB := list_to_map db;
  trace := [];
|}.

(** One part, downloaded to 500 bytes, of a video whose expected size
    was never recorded. *)
Definition world_partial_500 : World :=
  world_of [("Linus/Ep 1 Intro.partial", 500%N)] [].

(** Two parts: the first downloaded to 500 bytes, the second missing. *)
Definition world_second_part_missing : World :=
  world_of [("Linus/Ep 1 Intro - Part 1.partial", 500%N)] [].

(** Nothing on disk, nothing recorded. *)
Definition world_empty : World := world_of [] [].

(** The finished video: an [.mp4] file of the expected 1000 bytes. *)
Definition world_muxed : World :=
  world_of [("Linus/Ep 1 Intro.mp4", 1000%N)] [("g1", 1000)].

End Sample.

(** ** More concrete inputs *)

Module Cases.

(** A template without a folder. *)
Definition settings_flat : Settings := {|
  filePathFormatting := "%videoTitle%";
  considerAllNonPartialDownloaded := false;
  artworkSuffix := "";
  extras_downloadArtwork := true;
  extras_saveNfo := true;
  floatplane_downloadEdge := "";
  postProcessingCommand := "echo done";
|}.

Definition env_flat : Env :=
  Sample.env_with settings_flat (Some [ {| hostname := "edge01.example" |} ]).

(** An override edge. *)
Definition settings_override : Settings := {|
  filePathFormatting := "%channelTitle%/%videoTitle%";
  considerAllNonPartialDownloaded := false;
  artworkSuffix := "";
  extras_downloadArtwork := true;
  extras_saveNfo := true;
  floatplane_downloadEdge := "edge.override.example";
  postProcessingCommand := "";
|}.

Definition two_edges : list Edge :=
  [ {| hostname := "edge01.example" |}; {| hostname := "edge02.example" |} ].

Definition env_override : Env := Sample.env_with settings_override (Some two_edges).

(** The remote API gives the attachment [a2] a ticket without an edge
    set, and any other attachment a ticket with one edge. *)
Definition env_second_ticket_bare : Env := {|
  settings := Sample.settings0;
  args_headless := false;
  sanitize := id;
  nPad := Sample.pad2;
  htmlToText := id;
  xml_end := xml_end Sample.env0;
  season_episode_exec := λ _, None;
  to_number := Sample.decimal;
  cdn_delivery := λ _ attachment,
    if bool_decide (attachment = "a2") then Sample.ticket None
    else Sample.ticket (Some [ {| hostname := "edge01.example" |} ]);
  math_random := λ _, (1 # 2)%Q;
  ffmpeg := Sample.transcoder;
|}.

(** A ticket whose first quality label is a word and whose second
    reads as a number. *)
Definition ticket_hd : CdnInfo := {|
  edges := Some [ {| hostname := "edge01.example" |} ];
  resource_uri := "/video/{qualityLevels}.mp4?token={token}";
  resource_token := "tok";
  resource_qualityLevels := [ {| quality_name := "hd" |}; {| quality_name := "1080" |} ];
|}.

(** A video whose title has a slash, a backslash and a [" - "]. *)
Definition slash_title_video : Video := {|
  guid := "g4";
  title := "AC/DC - Live\2021";
  description := "";
  releaseDate := Sample.released;
  thumbnail := None;
  videoAttachments := ["a1"];
  channel := Sample.linus;
|}.

(** A video whose title has a dollar sign before a backquote, which a
    replacement text reads as the text before the match. *)
Definition backquote_title_video : Video := {|
  guid := "g5";
  title := "A$`B";
  description := "";
  releaseDate := Sample.released;
  thumbnail := None;
  videoAttachments := ["a1"];
  channel := Sample.linus;
|}.

(** A video without video attachments. *)
Definition no_parts : Video := Sample.video_of [].

(** Two parts and an expected size of 500 bytes: the first part holds
    501 bytes, one more than expected, and the second is missing. *)
Definition world_first_part_oversized : World :=
  Sample.world_of [("Linus/Ep 1 Intro - Part 1.partial", 501%N)] [("g1", 500)].

(** Both parts downloaded. *)
Definition world_two_partials : World :=
  Sample.world_of [("Linus/Ep 1 Intro - Part 1.partial", 500%N);
                   ("Linus/Ep 1 Intro - Part 2.partial", 300%N)] [("g1", 800)].

(** After the transcoder has failed on the only part of a video whose
    [.partial] file is missing. *)
Definition world_failed_run : World := {|
  files := files Sample.world_empty;
  videoDB := videoDB Sample.world_empty;
  trace := [ExecFile "./db/ffmpeg" (ffmpeg_args Sample.env0 Sample.one_part 0)];
|}.

(** After the transcoder runs on both parts, and after the whole of
    [muxffmpegMetadata]. *)
Definition world_transcoded : World :=
  (mapM (execFile_ffmpeg Sample.env0 Sample.two_parts) (indices Sample.two_parts)
        world_two_partials).1.

Definition world_finalised : World :=
  (muxffmpegMetadata Sample.env0 Sample.two_parts world_two_partials).1.

(** The expected size is known and nothing is on disk. *)
Definition world_size_known : World := Sample.world_of [] [("g1", 1000)].

(** A shell in which every command succeeds and writes nothing to its
    standard error. *)
Definition quiet_shell (command : string) : exn + (string * string) :=
  inr ("done", "").

End Cases.

(** * Properties *)

(** ** JavaScript built-ins *)

Example replaceAll_every_match :
  JS.replaceAll "ab" "X" "abcabab" = "XcXX".
Proof. reflexivity. Qed.

Example replaceAll_no_overlap :
  JS.replaceAll " - " " " "a - - b" = "a - b".
Proof. reflexivity. Qed.

Example replaceAll_dollar :
  JS.replaceAll "%t%" "a$$b$&c" "x%t%y" = "xa$b%t%cy".
Proof. reflexivity. Qed.

Example replace_first_only :
  JS.replace "{token}" "T" "/a/{token}/{token}" = "/a/T/{token}".
Proof. reflexivity. Qed.

Example split_join :
  JS.split "/" "a/b//c" = ["a"; "b"; ""; "c"]
  ∧ JS.join "/" (JS.init (JS.split "/" "a/b//c")) = "a/b/".
Proof. split; reflexivity. Qed.

(** ** State tracker *)

Section StateTracker.

Variable env : Env.

Lemma getFileBytes_split fs path :
  getFileBytes fs path = existing_size fs path - absent fs path.
Proof. unfold getFileBytes, existing_size, absent. destruct (fs !! path); lia. Qed.

Lemma getFileBytes_absent fs path :
  getFileBytes fs path = -1 ↔ fs !! path = None.
Proof.
  unfold getFileBytes. destruct (fs !! path) as [size|]; split; try done.
  intros H. pose proof (N2Z.is_nonneg size). lia.
Qed.

Lemma getFileBytes_present fs path size :
  fs !! path = Some size → getFileBytes fs path = Z.of_N size.
Proof. unfold getFileBytes. by intros ->. Qed.

Lemma foldl_add_sum_over (f : nat → Z) (l : list nat) (start : Z) :
  foldl (λ bytes i, bytes + f i) start l = start + sum_over f l.
Proof.
  revert start. induction l as [|i l IH]; intros start; simpl.
  - lia.
  - rewrite IH. lia.
Qed.

Lemma sum_over_sub (f g h : nat → Z) (l : list nat) :
  (∀ i, f i = g i - h i) →
  sum_over f l = sum_over g l - sum_over h l.
Proof.
  intros Hf. induction l as [|i l IH]; simpl; [done|].
  rewrite IH, Hf. lia.
Qed.

Lemma fileBytes_sum fs v extension :
  fileBytes env fs v extension
  = sum_over (λ i, getFileBytes fs (partFile env v i extension)) (indices v).
Proof. unfold fileBytes. by rewrite foldl_add_sum_over. Qed.

(** C4, as amended: [fileBytes] adds up what [getFileBytes] observes
    for every part, and a missing part is observed as [-1] and counts
    as [-1]: the result is the total size of the part files that exist
    minus the number of parts whose file is absent. For one file,
    the observation [-1] means exactly that the file is absent, so an
    absent file differs from an empty one. *)
Theorem fileBytes_counts_absent_parts fs v extension :
  fileBytes env fs v extension
  = sum_over (λ i, getFileBytes fs (partFile env v i extension)) (indices v)
  ∧ fileBytes env fs v extension
    = existing_total env fs v extension - absent_parts env fs v extension
  ∧ ∀ path, (getFileBytes fs path = -1 ↔ fs !! path = None)
            ∧ (fs !! path = Some 0%N → getFileBytes fs path = 0).
Proof.
  split; [apply fileBytes_sum|]. split.
  - rewrite fileBytes_sum. unfold existing_total, absent_parts.
    apply sum_over_sub. intros i. apply getFileBytes_split.
  - intros path. split; [apply getFileBytes_absent|].
    intros H. by rewrite (getFileBytes_present _ _ _ H).
Qed.

(** [fileBytes] in terms of what is on disk. *)
Lemma fileBytes_existing_minus_absent fs v extension :
  fileBytes env fs v extension
  = existing_total env fs v extension - absent_parts env fs v extension.
Proof.
  rewrite fileBytes_sum. unfold existing_total, absent_parts.
  apply sum_over_sub. intros i. apply getFileBytes_split.
Qed.

(** [isDownloaded()] in terms of [isMuxed()], [fileBytes] and
    [expectedSize]: a number is never strictly equal to [undefined]. *)
Lemma isDownloaded_iff w v :
  (isDownloaded env w v = true
   ↔ isMuxed env w v = true
     ∨ expectedSize w v = Some (fileBytes env (files w) v "partial"))
  ∧ (expectedSize w v = None → isMuxed env w v = false →
     isDownloaded env w v = false).
Proof.
  unfold isDownloaded, JS.strict_eq. split.
  - rewrite orb_true_iff. destruct (expectedSize w v) as [size|].
    + rewrite bool_decide_eq_true.
      split; (intros [H|H]; [by left|right; congruence]).
    + split; (intros [H|H]; [by left|discriminate H]).
  - by intros -> ->.
Qed.

(** C1, as amended: [isDownloaded()] is true exactly when [isMuxed()]
    is true or [expectedSize] equals the total size of the [.partial]
    files that exist minus the number of parts whose [.partial] file is
    missing. When no [.partial] file is missing this is the total size
    of the [.partial] files; with [expectedSize] unset and [isMuxed()]
    false, [isDownloaded()] is false. *)
Theorem isDownloaded_counts_absent_parts w v :
  (isDownloaded env w v = true
   ↔ isMuxed env w v = true
     ∨ expectedSize w v
       = Some (existing_total env (files w) v "partial"
               - absent_parts env (files w) v "partial"))
  ∧ (absent_parts env (files w) v "partial" = 0 →
     (isDownloaded env w v = true
      ↔ isMuxed env w v = true
        ∨ expectedSize w v = Some (existing_total env (files w) v "partial")))
  ∧ (expectedSize w v = None → isMuxed env w v = false →
     isDownloaded env w v = false).
Proof.
  destruct (isDownloaded_iff w v) as [Hiff Hunset].
  rewrite fileBytes_existing_minus_absent in Hiff.
  split; [exact Hiff|]. split; [|exact Hunset].
  intros Hnone. rewrite Hnone, Z.sub_0_r in Hiff. exact Hiff.
Qed.

(** C5: the suffix of a part is empty exactly when the video has one
    video attachment; otherwise it is [" - Part "] followed by the
    index plus one. *)
Theorem multiPartSuffix_spec v (attachmentIndex : nat) :
  (multiPartSuffix v attachmentIndex = "" ↔ length (videoAttachments v) = 1%nat)
  ∧ multiPartSuffix v attachmentIndex
    = if decide (length (videoAttachments v) = 1%nat) then ""
      else " - Part " +:+ pretty (attachmentIndex + 1)%nat.
Proof.
  unfold multiPartSuffix.
  destruct (decide (length (videoAttachments v) = 1%nat)) as [Hone|Hmany].
  - rewrite bool_decide_eq_false_2 by (intros H; by apply H). done.
  - rewrite bool_decide_eq_true_2 by done. split; [|done].
    split; [|done]. intros H. discriminate H.
Qed.

(** With one attachment and [considerAllNonPartialDownloaded] on,
    [isMuxed()] says whether the [.mp4] file exists. *)
Lemma isMuxed_one_part_exists w v :
  considerAllNonPartialDownloaded (settings env) = true →
  length (videoAttachments v) = 1%nat →
  isMuxed env w v = true ↔ is_Some (files w !! partFile env v 0 "mp4").
Proof.
  intros Hflag Hone. unfold isMuxed. rewrite Hflag, fileBytes_sum.
  unfold indices. rewrite Hone. simpl.
  rewrite negb_true_iff, bool_decide_eq_false, Z.add_0_r, getFileBytes_absent.
  rewrite <- not_eq_None_Some. done.
Qed.

(** With the flag on, [isMuxed()] compares the sum of the observed
    sizes with [-1]: it is true unless the sizes of the files that
    exist are one less than the number of absent parts. *)
Lemma isMuxed_flag_on w v :
  considerAllNonPartialDownloaded (settings env) = true →
  isMuxed env w v = true
  ↔ existing_total env (files w) v "mp4" - absent_parts env (files w) v "mp4" ≠ -1.
Proof.
  intros Hflag. unfold isMuxed. rewrite Hflag.
  rewrite negb_true_iff, bool_decide_eq_false, fileBytes_sum.
  unfold existing_total, absent_parts.
  by rewrite (sum_over_sub _ _ _ _ (λ i, getFileBytes_split (files w) (partFile env v i "mp4"))).
Qed.

(** With the flag off, [isMuxed()] compares the summed [.mp4] sizes
    with [expectedSize]. *)
Lemma isMuxed_flag_off w v :
  considerAllNonPartialDownloaded (settings env) = false →
  isMuxed env w v = true ↔ expectedSize w v = Some (fileBytes env (files w) v "mp4").
Proof.
  intros Hflag. unfold isMuxed, JS.strict_eq. rewrite Hflag.
  destruct (expectedSize w v); [|done].
  rewrite bool_decide_eq_true. split; congruence.
Qed.

End StateTracker.

Example scenario_1_paths :
  folderPath Sample.env0 Sample.one_part = "Linus"
  ∧ filePath Sample.env0 Sample.one_part = "Linus/Ep 1 Intro".
Proof. split; vm_compute; reflexivity. Qed.

Example scenario_2_part_files :
  partFile Sample.env0 Sample.two_parts 0 "mp4" = "Linus/Ep 1 Intro - Part 1.mp4"
  ∧ partFile Sample.env0 Sample.two_parts 1 "mp4" = "Linus/Ep 1 Intro - Part 2.mp4".
Proof. split; vm_compute; reflexivity. Qed.


(** Scenario 3, from C1: a [.partial] file of 500 bytes, no [.mp4]
    file and no [expectedSize]: the video is not downloaded. *)
Lemma isDownloaded_scenario_3 :
  isDownloaded Sample.env0 Sample.world_partial_500 Sample.one_part = false.
Proof.
  apply (proj2 (proj2 (isDownloaded_counts_absent_parts
                         Sample.env0 Sample.world_partial_500 Sample.one_part)));
    vm_compute; reflexivity.
Defined.

(** C1, as the claim states it, fails: of two parts the first holds 501
    bytes and the second is missing, and 500 bytes are expected. The
    [.partial] files hold 501 bytes, which is not the expected size, and
    [isMuxed()] is false; yet the missing part counts [-1], the sum
    [fileBytes] makes is 500, and [isDownloaded()] is true. *)
Lemma isDownloaded_missing_part_miscounted :
  existing_total Sample.env0 (files Cases.world_first_part_oversized) Sample.two_parts "partial"
  = 501
  ∧ files Cases.world_first_part_oversized !! partFile Sample.env0 Sample.two_parts 1 "partial"
    = None
  ∧ expectedSize Cases.world_first_part_oversized Sample.two_parts = Some 500
  ∧ isMuxed Sample.env0 Cases.world_first_part_oversized Sample.two_parts = false
  ∧ isDownloaded Sample.env0 Cases.world_first_part_oversized Sample.two_parts = true
  ∧ ¬ (isDownloaded Sample.env0 Cases.world_first_part_oversized Sample.two_parts = true
       ↔ isMuxed Sample.env0 Cases.world_first_part_oversized Sample.two_parts = true
         ∨ expectedSize Cases.world_first_part_oversized Sample.two_parts
           = Some (existing_total Sample.env0 (files Cases.world_first_part_oversized)
                     Sample.two_parts "partial")).
Proof.
  repeat split; try (vm_compute; reflexivity).
  intros [Hdone _]. destruct Hdone as [Hmuxed|Hsize]; [vm_compute; reflexivity| |].
  - vm_compute in Hmuxed. discriminate Hmuxed.
  - vm_compute in Hsize. discriminate Hsize.
Qed.

(** C4, as the claim states it, fails: with a first part of 500 bytes
    and a second part missing, the files that exist hold 500 bytes and
    [fileBytes] is 499. *)
Lemma fileBytes_absent_part_counts :
  existing_total Sample.env0 (files Sample.world_second_part_missing) Sample.two_parts "partial"
  = 500
  ∧ fileBytes Sample.env0 (files Sample.world_second_part_missing) Sample.two_parts "partial"
    = 499
  ∧ fileBytes Sample.env0 (files Sample.world_second_part_missing) Sample.two_parts "partial"
    ≠ existing_total Sample.env0 (files Sample.world_second_part_missing) Sample.two_parts "partial".
Proof. repeat split; vm_compute; congruence. Qed.

(** C2 at its failing input: [considerAllNonPartialDownloaded] is on,
    the video has two parts and neither [.mp4] file exists; the sizes
    observed add up to [-2], which is not [-1], and [isMuxed()] is
    true. *)
Theorem isMuxed_two_absent_parts :
  considerAllNonPartialDownloaded (settings Sample.env_all) = true
  ∧ files Sample.world_empty !! partFile Sample.env_all Sample.two_parts 0 "mp4" = None
  ∧ files Sample.world_empty !! partFile Sample.env_all Sample.two_parts 1 "mp4" = None
  ∧ fileBytes Sample.env_all (files Sample.world_empty) Sample.two_parts "mp4" = -2
  ∧ isMuxed Sample.env_all Sample.world_empty Sample.two_parts = true.
Proof. repeat split; vm_compute; reflexivity. Qed.

(** Scenario 4: with the flag on and one part whose [.mp4] file exists,
    [isMuxed()] is true whatever [expectedSize] is. *)
Example scenario_4_flag_on (size : N) (db : list (string * Z)) :
  isMuxed Sample.env_all (Sample.world_of [("Linus/Ep 1 Intro.mp4", size)] db) Sample.one_part
  = true.
Proof.
  apply isMuxed_one_part_exists; [reflexivity..|].
  exists size. vm_compute partFile. apply lookup_insert_eq.
Qed.

(** ** Prompts *)

(** C10: both prompts return the user's answer or-ed with the default;
    with a default of true the result is true whatever the answer,
    and [findClosestServerNow], whose default is true when the caller
    gives none, then always returns true. *)
Theorem prompts_or_default (prompts : Prompts.question → gmap string bool) (initial : bool) :
  Prompts.saveLoginDetails prompts (Some initial)
  = JS.Bool (Prompts.answered prompts (Prompts.save_question initial) || initial)
  ∧ Prompts.findClosestServerNow prompts (Some initial)
    = JS.Bool (Prompts.answered prompts (Prompts.findBestServer_question initial) || initial)
  ∧ Prompts.saveLoginDetails prompts (Some true) = JS.Bool true
  ∧ Prompts.findClosestServerNow prompts (Some true) = JS.Bool true
  ∧ Prompts.findClosestServerNow prompts None = JS.Bool true.
Proof.
  unfold Prompts.saveLoginDetails, Prompts.findClosestServerNow,
    Prompts.answered, Prompts.property, JS.or; simpl.
  repeat split;
    repeat match goal with
      | |- context [prompts ?q !! ?k] => destruct (prompts q !! k) as [[]|]
      end; simpl; try reflexivity; by destruct initial.
Qed.

(** Answering "No" to a prompt whose default is true. *)
Example prompts_no_against_true_default :
  Prompts.saveLoginDetails (λ q, {[ Prompts.name q := false ]}) (Some true) = JS.Bool true
  ∧ Prompts.saveLoginDetails (λ q, {[ Prompts.name q := false ]}) None = JS.Bool false
  ∧ Prompts.findClosestServerNow (λ q, {[ Prompts.name q := false ]}) None = JS.Bool true.
Proof. repeat split; vm_compute; reflexivity. Qed.

(** ** Delivery resolver: the quality *)

Section Quality.

Variable env : Env.

Lemma insert_sorted_perm {A} (cmp : A → A → option Z) (x : A) (l : list A) :
  JS.insert_sorted cmp x l ≡ₚ x :: l.
Proof.
  induction l as [|y ys IH]; simpl; [done|].
  case_bool_decide; [done|].
  rewrite IH. apply Permutation_swap.
Qed.

Lemma sort_perm {A} (cmp : A → A → option Z) (l : list A) : JS.sort cmp l ≡ₚ l.
Proof.
  induction l as [|x l IH]; simpl; [done|].
  unfold JS.sort in IH. by rewrite insert_sorted_perm, IH.
Qed.

Lemma by_number_descending_numeric a b :
  numeric env a → numeric env b →
  JS.cmp_sign (by_number_descending env a b) = number_of env b - number_of env a.
Proof.
  unfold numeric, number_of, by_number_descending.
  intros [na ->] [nb ->]. reflexivity.
Qed.

Lemma insert_sorted_head_bounds x l :
  numeric env x → Forall (numeric env) l →
  head_bounds env l → head_bounds env (JS.insert_sorted (by_number_descending env) x l).
Proof.
  intros Hx Hl Hb. destruct l as [|y ys]; simpl.
  - by repeat constructor.
  - pose proof (Forall_inv Hl) as Hy. simpl in Hb.
    rewrite (by_number_descending_numeric x y) by done.
    case_bool_decide as Hle; simpl.
    + constructor; [lia|].
      eapply Forall_impl; [exact Hb|]. simpl. intros label Hlabel. lia.
    + constructor; [lia|].
      rewrite insert_sorted_perm. constructor; [lia|].
      by apply Forall_inv_tail in Hb.
Qed.

Lemma sort_head_bounds l :
  Forall (numeric env) l → head_bounds env (JS.sort (by_number_descending env) l).
Proof.
  induction l as [|x l IH]; intros Hl; simpl; [done|].
  apply insert_sorted_head_bounds.
  - by apply Forall_inv in Hl.
  - fold (JS.sort (by_number_descending env) l). rewrite sort_perm.
    by apply Forall_inv_tail in Hl.
  - apply IH. by apply Forall_inv_tail in Hl.
Qed.

(** C7: for a ticket that has quality labels, all of which read as
    numbers, the quality downloaded is the requested one when it is
    among the labels, and otherwise a label of the ticket that no other
    label exceeds as a number. *)
Theorem downloadQuality_spec cdnInfo quality :
  quality_names cdnInfo ≠ [] →
  Forall (numeric env) (quality_names cdnInfo) →
  (quality ∈ quality_names cdnInfo → downloadQuality env cdnInfo quality = Some quality)
  ∧ (quality ∉ quality_names cdnInfo →
     ∃ best, downloadQuality env cdnInfo quality = Some best
             ∧ highest env best (quality_names cdnInfo)).
Proof.
  intros Hne Hnum. unfold downloadQuality, JS.includes, availableQualities.
  pose proof (sort_perm (by_number_descending env) (quality_names cdnInfo)) as Hperm.
  pose proof (sort_head_bounds _ Hnum) as Hb.
  split; intros Hq.
  - rewrite bool_decide_eq_true_2; [done|]. by rewrite Hperm.
  - rewrite bool_decide_eq_false_2 by (by rewrite Hperm).
    destruct (JS.sort (by_number_descending env) (quality_names cdnInfo))
      as [|best rest] eqn:Hsort.
    + apply Permutation_nil_l in Hperm. congruence.
    + exists best. split; [done|]. split.
      * rewrite <- Hperm. by left.
      * simpl in Hb. by rewrite <- Hperm.
Qed.

End Quality.

(** Scenario 5: from the labels 1080, 720 and 480, a request for 720
    downloads 720 and a request for 4k downloads a highest label. *)
Lemma downloadQuality_scenario_5 :
  downloadQuality Sample.env0 (Sample.ticket None) "720" = Some "720"
  ∧ ∃ best, downloadQuality Sample.env0 (Sample.ticket None) "4k" = Some best
            ∧ highest Sample.env0 best ["1080"; "720"; "480"].
Proof.
  assert (Hne : quality_names (Sample.ticket None) ≠ []) by discriminate.
  assert (Hnum : Forall (numeric Sample.env0) (quality_names (Sample.ticket None))).
  { repeat constructor; eexists; vm_compute; reflexivity. }
  split.
  - apply (proj1 (downloadQuality_spec Sample.env0 (Sample.ticket None) "720" Hne Hnum)).
    eapply (bool_decide_unpack _). vm_compute. exact I.
  - apply (proj2 (downloadQuality_spec Sample.env0 (Sample.ticket None) "4k" Hne Hnum)).
    eapply (bool_decide_unpack _). vm_compute. exact I.
Defined.

(** C7, as the claim states it, fails when a label does not read as a
    number: from the labels hd and 1080, of which 1080 is numerically
    the highest, a request for 4k downloads hd. Comparing hd with 1080
    gives [NaN], which the sort takes for 0, so the labels stay as the
    ticket lists them. *)
Lemma downloadQuality_label_not_a_number :
  quality_names Cases.ticket_hd = ["hd"; "1080"]
  ∧ ("4k" ∉ quality_names Cases.ticket_hd)
  ∧ to_number Sample.env0 "hd" = None
  ∧ to_number Sample.env0 "1080" = Some 1080
  ∧ highest Sample.env0 "1080" (quality_names Cases.ticket_hd)
  ∧ downloadQuality Sample.env0 Cases.ticket_hd "4k" = Some "hd"
  ∧ ¬ highest Sample.env0 "hd" (quality_names Cases.ticket_hd).
Proof.
  split; [reflexivity|]. split.
  { eapply (bool_decide_unpack _). vm_compute. exact I. }
  split; [vm_compute; reflexivity|]. split; [vm_compute; reflexivity|]. split.
  { split; [eapply (bool_decide_unpack _); vm_compute; exact I|].
    repeat constructor; vm_compute; discriminate. }
  split; [vm_compute; reflexivity|].
  intros [_ Hbound]. apply Forall_inv_tail, Forall_inv in Hbound.
  vm_compute in Hbound. by apply Hbound.
Qed.

Example scenario_5_fallback :
  downloadQuality Sample.env0 (Sample.ticket None) "4k" = Some "1080".
Proof. vm_compute. reflexivity. Qed.

(** The labels need not arrive sorted. *)
Example downloadQuality_unsorted_labels :
  head (JS.sort (by_number_descending Sample.env0) ["480"; "1080"; "720"; "2160"; "360"])
  = Some "2160".
Proof. vm_compute. reflexivity. Qed.

(** ** Download orchestrator and finaliser *)

Section Operations.

Variable env : Env.

(** C9: when [isDownloaded()] is true, [download] throws its "already
    downloaded" error and leaves the world as it was: no folder made,
    no file written, no ticket requested, no transfer started. *)
Theorem download_already_downloaded v quality w :
  isDownloaded env w v = true →
  download env v quality w
  = (w, inl (Error ("Attempting to download " +:+ JS.dquote +:+ title v +:+ JS.dquote
                    +:+ " video already downloaded!"))).
Proof.
  intros Hdone. unfold download, mbind, M_bind, get. simpl. by rewrite Hdone.
Qed.

Lemma at_index_nil {A} (i : Z) : at_index (@nil A) i = None.
Proof. unfold at_index. by case_bool_decide. Qed.

(** A ticket without an edge set: the "no edges" error, after the
    request for the ticket. *)
Lemma download_part_edges_undefined v quality i attachment w :
  edges (cdn_delivery env "download" attachment) = None →
  download_part env v quality i attachment w
  = ({| files := files w; videoDB := videoDB w;
        trace := trace w ++ [CdnDelivery "download" attachment] |},
     inl (Error "No edges found for video")).
Proof.
  intros Hnone. unfold download_part, mbind, M_bind, emit, modify. simpl.
  by rewrite Hnone.
Qed.

(** A ticket with an empty edge set: a [TypeError], and no "no edges"
    error. *)
Lemma download_part_edges_empty v quality i attachment w :
  edges (cdn_delivery env "download" attachment) = Some [] →
  ∃ message,
    download_part env v quality i attachment w
    = ({| files := files w; videoDB := videoDB w;
          trace := trace w ++ [CdnDelivery "download" attachment] |},
       inl (TypeError message)).
Proof.
  intros Hempty. unfold download_part, mbind, M_bind, emit, modify. simpl.
  rewrite Hempty, at_index_nil.
  case_bool_decide; eexists; reflexivity.
Qed.

(** The guard of [muxffmpegMetadata] never fires: for every video and
    world the operation is its body after the guard. *)
Lemma muxffmpegMetadata_unguarded v :
  muxffmpegMetadata env v
  = (outcomes ← mapM (execFile_ffmpeg env v) (indices v);
     await_all outcomes;;
     w ← get;
     modify (set_expectedSize v (Some (fileBytes env (files w) v "mp4")));;
     markCompleted env v;;
     for_each (indices v) (λ i,
       unlink (partFile env v i "partial");;
       utimes (partFile env v i "mp4") (releaseDate v))).
Proof. reflexivity. Qed.

(** One transcoder run: its event, the files it leaves, and how its
    promise settles. *)
Lemma execFile_ffmpeg_run v i w :
  execFile_ffmpeg env v i w
  = ({| files := fst (ffmpeg env (ffmpeg_args env v i) (files w));
        videoDB := videoDB w;
        trace := trace w ++ [ExecFile (ffmpeg_file env) (ffmpeg_args env v i)] |},
     inr (match snd (ffmpeg env (ffmpeg_args env v i) (files w)) with
          | Some (message, stderr) => Some (Error (message +:+ stderr))
          | None => None
          end)).
Proof.
  unfold execFile_ffmpeg. destruct w as [fs db tr]. run_M.
  destruct (ffmpeg env (ffmpeg_args env v i) fs) as [fs' error]. reflexivity.
Qed.

(** The transcoder runs never throw, and they leave one [ExecFile]
    event per part. *)
Lemma transcoder_runs v (l : list nat) w :
  ∃ fs outcomes,
    mapM (execFile_ffmpeg env v) l w
    = ({| files := fs; videoDB := videoDB w;
          trace := trace w ++ map (λ i, ExecFile (ffmpeg_file env) (ffmpeg_args env v i)) l |},
       inr outcomes).
Proof.
  revert w. induction l as [|i l IH]; intros w; simpl.
  - exists (files w), []. unfold mret, M_ret. rewrite app_nil_r. by destruct w.
  - unfold mbind at 1. unfold M_bind at 1. rewrite execFile_ffmpeg_run.
    unfold mbind at 1. unfold M_bind at 1.
    match goal with |- context [mapM _ l ?w'] => destruct (IH w') as (fs' & outcomes & ->) end.
    simpl. eexists _, _. unfold mret, M_ret. by rewrite <- app_assoc.
Qed.

Lemma extends_ret {A} (a : A) : extends (mret a).
Proof. intros w. done. Qed.

Lemma extends_throw {A} (e : exn) : extends (mthrow e : M A).
Proof. intros w. done. Qed.

Lemma extends_bind {A B} (m : M A) (f : A → M B) :
  extends m → (∀ a, extends (f a)) → extends (m ≫= f).
Proof.
  intros Hm Hf w. unfold mbind, M_bind. specialize (Hm w).
  destruct (m w) as [w' [e|a]]; simpl in *; [done|].
  etrans; [exact Hm|]. apply Hf.
Qed.

Lemma extends_get : extends get.
Proof. intros w. done. Qed.

Lemma extends_emit (e : event) : extends (emit e).
Proof. intros w. simpl. by apply prefix_app_r. Qed.

Lemma extends_set_files fs : extends (set_files fs).
Proof. intros w. done. Qed.

Lemma extends_set_expectedSize v size : extends (modify (set_expectedSize v size)).
Proof. intros w. done. Qed.

Lemma extends_for_each {A} (l : list A) (body : A → M unit) :
  (∀ x, extends (body x)) → extends (for_each l body).
Proof.
  intros Hbody. induction l as [|x l IH]; simpl.
  - apply extends_ret.
  - apply extends_bind; [apply Hbody|done].
Qed.

Lemma extends_unlink path : extends (unlink path).
Proof.
  apply extends_bind; [apply extends_get|]. intros w.
  destruct (files w !! path).
  - apply extends_bind; [apply extends_emit|]. intros _. apply extends_set_files.
  - apply extends_throw.
Qed.

Lemma extends_utimes path mtime : extends (utimes path mtime).
Proof.
  apply extends_bind; [apply extends_get|]. intros w.
  destruct (files w !! path); [apply extends_emit|apply extends_throw].
Qed.

Lemma extends_markCompleted v : extends (markCompleted env v).
Proof.
  apply extends_bind; [apply extends_get|]. intros w.
  destruct (negb (isMuxed env w v)); [apply extends_throw|apply extends_emit].
Qed.

Lemma extends_await_all outcomes : extends (await_all outcomes).
Proof.
  unfold await_all. destruct (omap id outcomes); [apply extends_ret|apply extends_throw].
Qed.

(** Whether the video is downloaded or not, [muxffmpegMetadata] first
    runs the transcoder on every part. *)
Lemma muxffmpegMetadata_runs_transcoder v w :
  trace w ++ map (λ i, ExecFile (ffmpeg_file env) (ffmpeg_args env v i)) (indices v)
  `prefix_of` trace (fst (muxffmpegMetadata env v w)).
Proof.
  rewrite muxffmpegMetadata_unguarded.
  unfold mbind at 1. unfold M_bind at 1.
  destruct (transcoder_runs v (indices v) w) as (fs & outcomes & ->).
  match goal with |- _ `prefix_of` trace (fst (?m ?w')) =>
    assert (extends m) as Hext end.
  { apply extends_bind; [apply extends_await_all|]. intros _.
    apply extends_bind; [apply extends_get|]. intros w'.
    apply extends_bind; [apply extends_set_expectedSize|]. intros _.
    apply extends_bind; [apply extends_markCompleted|]. intros _.
    apply extends_for_each. intros i.
    apply extends_bind; [apply extends_unlink|]. intros _. apply extends_utimes. }
  apply Hext.
Qed.

End Operations.

(** C9 on the finished video. *)
Lemma download_finished_video :
  download Sample.env0 Sample.one_part "720" Sample.world_muxed
  = (Sample.world_muxed,
     inl (Error ("Attempting to download " +:+ JS.dquote +:+ "Ep 1 - Intro" +:+ JS.dquote
                 +:+ " video already downloaded!"))).
Proof.
  apply (download_already_downloaded Sample.env0 Sample.one_part "720" Sample.world_muxed).
  vm_compute. reflexivity.
Defined.

(** C8 at its failing input: the ticket carries an empty list of edges,
    and [download] throws a [TypeError] where the "no edges" error is
    due; by then it has made the folder, written the [.nfo] file and
    requested the ticket. *)
Theorem download_empty_edges :
  edges (cdn_delivery Sample.env_no_edge "download" "a1") = Some []
  ∧ isDownloaded Sample.env_no_edge Sample.world_empty Sample.one_part = false
  ∧ snd (download Sample.env_no_edge Sample.one_part "720" Sample.world_empty)
    = inl (TypeError "Cannot read properties of undefined (reading 'hostname')")
  ∧ snd (download Sample.env_no_edge Sample.one_part "720" Sample.world_empty)
    ≠ inl (Error "No edges found for video").
Proof. repeat split; vm_compute; congruence. Qed.

(** C3 at its failing input: nothing is on disk, [isDownloaded()] is
    false, and [muxffmpegMetadata] runs the transcoder, whose failure is
    the error it throws. *)
Theorem muxffmpegMetadata_not_downloaded :
  isDownloaded Sample.env0 Sample.world_empty Sample.one_part = false
  ∧ muxffmpegMetadata Sample.env0 Sample.one_part Sample.world_empty
    = ({| files := files Sample.world_empty;
          videoDB := videoDB Sample.world_empty;
          trace := [ExecFile "./db/ffmpeg" (ffmpeg_args Sample.env0 Sample.one_part 0)] |},
       inl (Error "Command failed: No such file or directory")).
Proof. split; vm_compute; reflexivity. Qed.

(** A download that went well, then finalising: the transcoder is run
    on each part, the expected size becomes the size of the [.mp4]
    files, the video is marked completed and the [.partial] files are
    removed. *)
Example muxffmpegMetadata_two_parts :
  let w := Sample.world_of [("Linus/Ep 1 Intro - Part 1.partial", 500%N);
                            ("Linus/Ep 1 Intro - Part 2.partial", 300%N)] [("g1", 800)] in
  let '(w', result) := muxffmpegMetadata Sample.env0 Sample.two_parts w in
  result = inr ()
  ∧ expectedSize w' Sample.two_parts = Some 800
  ∧ map_to_list (files w') ≡ₚ [("Linus/Ep 1 Intro - Part 1.mp4", 500%N);
                                ("Linus/Ep 1 Intro - Part 2.mp4", 300%N)]
  ∧ trace w' = [
      ExecFile "./db/ffmpeg" (ffmpeg_args Sample.env0 Sample.two_parts 0);
      ExecFile "./db/ffmpeg" (ffmpeg_args Sample.env0 Sample.two_parts 1);
      MarkVideoCompleted "g1" 1620410700000;
      Unlink "Linus/Ep 1 Intro - Part 1.partial";
      Utimes "Linus/Ep 1 Intro - Part 1.mp4" Sample.released;
      Unlink "Linus/Ep 1 Intro - Part 2.partial";
      Utimes "Linus/Ep 1 Intro - Part 2.mp4" Sample.released ].
Proof.
  vm_compute. repeat split.
  apply (bool_decide_unpack _). vm_compute. exact I.
Qed.

(** ** Path formatter *)

(** *** Strings *)

Lemma str_app_cons (a : ascii) (s t : string) : String a s +:+ t = String a (s +:+ t).
Proof. reflexivity. Qed.

Lemma str_app_nil_l (s : string) : "" +:+ s = s.
Proof. reflexivity. Qed.

Lemma str_app_nil_r (s : string) : s +:+ "" = s.
Proof. induction s as [|a s IH]; [done|]. by rewrite str_app_cons, IH. Qed.

Lemma str_app_assoc (s t u : string) : (s +:+ t) +:+ u = s +:+ (t +:+ u).
Proof. induction s as [|a s IH]; [done|]. by rewrite !str_app_cons, IH. Qed.

Lemma str_length_app (s t : string) :
  String.length (s +:+ t) = (String.length s + String.length t)%nat.
Proof. induction s as [|a s IH]; [done|]. rewrite str_app_cons. simpl. by rewrite IH. Qed.

Lemma free_of_app c (s t : string) : free_of c (s +:+ t) = free_of c s && free_of c t.
Proof.
  induction s as [|a s IH]; [done|].
  rewrite str_app_cons. simpl. by rewrite IH, andb_assoc.
Qed.

Lemma free_of_cons c a (s : string) :
  free_of c (String a s) = true ↔ a ≠ c ∧ free_of c s = true.
Proof.
  simpl. rewrite andb_true_iff, negb_true_iff, bool_decide_eq_false. done.
Qed.

Lemma drop_app (s t : string) : JS.drop (String.length s) (s +:+ t) = t.
Proof. induction s as [|a s IH]; [done|]. rewrite str_app_cons. simpl. exact IH. Qed.

Lemma starts_with_app (p s : string) : JS.starts_with p (p +:+ s) = true.
Proof.
  induction p as [|a p IH]; [done|].
  rewrite str_app_cons. simpl. by rewrite bool_decide_eq_true_2, IH.
Qed.

(** *** Substitution and global replacement *)

Lemma getSubstitution_plain matched before after repl :
  free_of "$" repl = true → JS.getSubstitution matched before after repl = repl.
Proof.
  induction repl as [|a r IH]; [done|].
  rewrite free_of_cons. intros [Ha Hr]. simpl.
  rewrite bool_decide_eq_false_2 by done. by rewrite IH.
Qed.

Section ReplaceAll.

Variables (pat repl : string).
Hypothesis repl_plain : free_of "$" repl = true.

(** The text read so far only matters to a replacement that has a
    dollar sign. *)
Lemma replaceAll_go_before before before' skip s :
  JS.replaceAll_go pat repl before skip s = JS.replaceAll_go pat repl before' skip s.
Proof.
  revert before before' skip.
  induction s as [|a s IH]; intros before before' skip; simpl.
  - destruct pat; [|done]. by rewrite !getSubstitution_plain.
  - destruct skip as [|k]; [|apply IH].
    rewrite !getSubstitution_plain by done.
    destruct (JS.starts_with pat (String a s)).
    + f_equal. destruct (String.length pat); [f_equal|]; apply IH.
    + f_equal. apply IH.
Qed.

(** Passing over the rest of a match. *)
Lemma replaceAll_go_skip before (t s : string) :
  JS.replaceAll_go pat repl before (String.length t) (t +:+ s)
  = JS.replaceAll_go pat repl "" 0 s.
Proof.
  revert before. induction t as [|a t IH]; intros before.
  - rewrite str_app_nil_l. apply replaceAll_go_before.
  - rewrite str_app_cons. simpl. apply IH.
Qed.

End ReplaceAll.

(** *** One placeholder *)

Lemma token_app (name rest : string) :
  token name +:+ rest = String "%" (name +:+ String "%" rest).
Proof. unfold token. by rewrite str_app_cons, str_app_assoc. Qed.

Lemma starts_with_name (p c rest : string) :
  free_of "%" p = true → free_of "%" c = true →
  JS.starts_with (p +:+ "%") (c +:+ String "%" rest) = bool_decide (p = c).
Proof.
  revert c. induction p as [|a p IH]; intros [|b c] Hp Hc.
  - done.
  - apply free_of_cons in Hc as [Hb _]. rewrite str_app_nil_l, str_app_cons. simpl.
    rewrite bool_decide_eq_false_2 by congruence. done.
  - apply free_of_cons in Hp as [Ha _]. rewrite str_app_nil_l, str_app_cons. simpl.
    rewrite bool_decide_eq_false_2 by done. done.
  - apply free_of_cons in Hp as [_ Hp]. apply free_of_cons in Hc as [_ Hc].
    rewrite !str_app_cons. simpl. rewrite IH by done.
    destruct (decide (a = b)) as [->|Hab].
    + rewrite bool_decide_eq_true_2 by done. simpl.
      apply bool_decide_ext. split; congruence.
    + rewrite (bool_decide_eq_false_2 (a = b)) by done. simpl.
      symmetry. apply bool_decide_eq_false_2. congruence.
Qed.

Lemma starts_with_name_open (p c : string) :
  free_of "%" c = true → JS.starts_with (p +:+ "%") c = false.
Proof.
  revert c. induction p as [|a p IH]; intros [|b c] Hc; try done.
  - apply free_of_cons in Hc as [Hb _]. rewrite str_app_nil_l. simpl.
    rewrite bool_decide_eq_false_2 by congruence. done.
  - apply free_of_cons in Hc as [_ Hc]. rewrite str_app_cons. simpl.
    rewrite IH by done. apply andb_false_r.
Qed.

Section OnePlaceholder.

Variables (p value : string).
Hypothesis p_name : free_of "%" p = true.
Hypothesis value_plain : free_of "$" value = true.

(** Text without a percent sign is copied. *)
Lemma replaceAll_text (text s : string) :
  free_of "%" text = true →
  JS.replaceAll (token p) value (text +:+ s) = text +:+ JS.replaceAll (token p) value s.
Proof.
  unfold JS.replaceAll. induction text as [|a text IH]; intros Htext; [done|].
  apply free_of_cons in Htext as [Ha Htext]. rewrite !str_app_cons. simpl.
  rewrite bool_decide_eq_false_2 by congruence. simpl. f_equal.
  rewrite (replaceAll_go_before _ _ value_plain _ ""). by apply IH.
Qed.

(** The placeholder is replaced by the value. *)
Lemma replaceAll_token (s : string) :
  JS.replaceAll (token p) value (token p +:+ s)
  = value +:+ JS.replaceAll (token p) value s.
Proof.
  unfold JS.replaceAll.
  change (token p +:+ s) with (String "%" ((p +:+ "%") +:+ s)).
  change (JS.replaceAll_go (token p) value "" 0 (String "%" ((p +:+ "%") +:+ s)))
    with (if JS.starts_with (token p) (token p +:+ s)
          then JS.getSubstitution (token p) ""
                 (JS.drop (String.length (token p)) (token p +:+ s)) value
               +:+ JS.replaceAll_go (token p) value (JS.snoc "" "%")
                     (String.length (p +:+ "%")) ((p +:+ "%") +:+ s)
          else String "%" (JS.replaceAll_go (token p) value (JS.snoc "" "%") 0
                             ((p +:+ "%") +:+ s))).
  rewrite starts_with_app, getSubstitution_plain by done.
  by rewrite replaceAll_go_skip.
Qed.

(** A percent sign that starts no placeholder is copied. *)
Lemma replaceAll_percent (s : string) :
  JS.starts_with (p +:+ "%") s = false →
  JS.replaceAll (token p) value (String "%" s)
  = String "%" (JS.replaceAll (token p) value s).
Proof.
  intros Hs. unfold JS.replaceAll. simpl. rewrite Hs. simpl. f_equal.
  apply replaceAll_go_before. done.
Qed.

End OnePlaceholder.

(** *** One pass over a template *)

Lemma render_lead (x text : string) tokens :
  render (x +:+ text) tokens = x +:+ render text tokens.
Proof. destruct tokens as [|[name text'] rest]; simpl; [done|]. apply str_app_assoc. Qed.

Lemma substituted_lead lookup (x text : string) tokens :
  substituted lookup (x +:+ text) tokens = x +:+ substituted lookup text tokens.
Proof. destruct tokens as [|[name text'] rest]; simpl; [done|]. apply str_app_assoc. Qed.

Lemma between_lead lookup (x text : string) rest :
  between lookup (x +:+ text) rest = (λ gap, x +:+ gap) <$> between lookup text rest.
Proof.
  revert text. induction rest as [|[name text'] rest IH]; intros text; simpl; [done|].
  f_equal. by rewrite str_app_assoc, IH.
Qed.

Lemma pass_lead p value (x text : string) tokens :
  pass p value (x +:+ text) tokens
  = (x +:+ (pass p value text tokens).1, (pass p value text tokens).2).
Proof.
  revert text. induction tokens as [|[name text'] rest IH]; intros text; simpl; [done|].
  case_bool_decide; [|done].
  by rewrite str_app_assoc, IH.
Qed.

Lemma well_formed_cons text name text' rest :
  well_formed text ((name, text') :: rest) = true
  ↔ free_of "%" text = true ∧ free_of "%" name = true ∧ well_formed text' rest = true.
Proof.
  unfold well_formed. simpl. rewrite !andb_true_iff. tauto.
Qed.

Lemma well_formed_text text tokens :
  well_formed text tokens = true → free_of "%" text = true.
Proof. unfold well_formed. rewrite andb_true_iff. tauto. Qed.

Lemma well_formed_lead (x text : string) tokens :
  free_of "%" x = true → well_formed text tokens = true →
  well_formed (x +:+ text) tokens = true.
Proof.
  unfold well_formed. rewrite !andb_true_iff, free_of_app, andb_true_iff. tauto.
Qed.

Section OnePass.

Variable lookup : list (string * string).
Variables (p value : string).
Hypothesis p_name : free_of "%" p = true.
Hypothesis value_plain : free_of "$" value = true.
Hypothesis value_text : free_of "%" value = true.
Hypothesis value_of_p : value_of lookup p = value.

Lemma starts_with_gap text rest :
  well_formed text rest = true →
  Forall (λ gap, gap ≠ p) (between lookup text rest) →
  JS.starts_with (p +:+ "%") (render text rest) = false.
Proof.
  intros Hwf Hgap. destruct rest as [|[name text'] rest].
  - simpl. apply starts_with_name_open. by apply well_formed_text in Hwf.
  - simpl. rewrite token_app.
    rewrite starts_with_name by (done || by apply well_formed_text in Hwf).
    apply bool_decide_eq_false_2. apply Forall_inv in Hgap. congruence.
Qed.

(** The global replacement of one placeholder carries out the pass. *)
Lemma replaceAll_pass text tokens :
  well_formed text tokens = true →
  Forall (λ gap, gap ≠ p) (gaps lookup tokens) →
  JS.replaceAll (token p) value (render text tokens)
  = render (pass p value text tokens).1 (pass p value text tokens).2.
Proof.
  revert text. induction tokens as [|[name text'] rest IH]; intros text Hwf Hgaps.
  - simpl. rewrite <- (str_app_nil_r text) at 1.
    rewrite replaceAll_text by (done || by apply well_formed_text in Hwf).
    apply str_app_nil_r.
  - apply well_formed_cons in Hwf as (Htext & Hname & Hwf).
    simpl in Hgaps. apply Forall_app in Hgaps as [Hgap Hgaps].
    simpl. rewrite replaceAll_text by done.
    case_bool_decide as Hp.
    + subst name. rewrite replaceAll_token by done.
      rewrite IH by done.
      rewrite pass_lead, pass_lead. simpl.
      by rewrite render_lead, render_lead.
    + simpl. f_equal. rewrite !token_app.
      rewrite replaceAll_percent.
      2:{ done. }
      2:{ rewrite starts_with_name by done. apply bool_decide_eq_false_2. congruence. }
      f_equal. rewrite replaceAll_text by done. f_equal.
      rewrite replaceAll_percent by (done || by apply starts_with_gap).
      f_equal. by apply IH.
Qed.

Lemma pass_well_formed text tokens :
  well_formed text tokens = true →
  well_formed (pass p value text tokens).1 (pass p value text tokens).2 = true.
Proof.
  revert text. induction tokens as [|[name text'] rest IH]; intros text Hwf; [done|].
  apply well_formed_cons in Hwf as (Htext & Hname & Hwf). simpl.
  case_bool_decide.
  - rewrite pass_lead, pass_lead. simpl.
    apply well_formed_lead; [done|]. apply well_formed_lead; [done|]. by apply IH.
  - simpl. apply well_formed_cons. auto.
Qed.

Lemma pass_between text rest :
  between lookup (pass p value text rest).1 (pass p value text rest).2
  ⊆ between lookup text rest.
Proof.
  revert text. induction rest as [|[name text'] rest IH]; intros text; simpl; [done|].
  case_bool_decide as Hp.
  - subst name. rewrite value_of_p. apply list_subseteq_cons, IH.
  - simpl. apply list_subseteq_skip.
    rewrite <- !str_app_assoc, !(between_lead _ (text +:+ value_of lookup name)).
    intros gap (gap' & -> & Hgap)%list_elem_of_fmap.
    apply list_elem_of_fmap_2. by apply IH.
Qed.

Lemma pass_gaps text tokens :
  gaps lookup (pass p value text tokens).2 ⊆ gaps lookup tokens.
Proof.
  revert text. induction tokens as [|[name text'] rest IH]; intros text; simpl; [done|].
  case_bool_decide.
  - apply list_subseteq_app_r, IH.
  - simpl. intros gap [Hgap|Hgap]%elem_of_app; apply elem_of_app.
    + left. by apply pass_between.
    + right. by apply (IH text').
Qed.

Lemma pass_substituted text tokens :
  substituted lookup (pass p value text tokens).1 (pass p value text tokens).2
  = substituted lookup text tokens.
Proof.
  revert text. induction tokens as [|[name text'] rest IH]; intros text; simpl; [done|].
  case_bool_decide as Hp.
  - subst name. rewrite value_of_p, pass_lead, pass_lead. simpl.
    by rewrite !substituted_lead, IH.
  - simpl. by rewrite IH.
Qed.

Lemma pass_names text tokens :
  Forall (λ token, token.1 ≠ p ∧ token.1 ∈ tokens.*1) (pass p value text tokens).2.
Proof.
  revert text. induction tokens as [|[name text'] rest IH]; intros text; simpl; [done|].
  case_bool_decide.
  - eapply Forall_impl; [apply IH|]. simpl. intros token [? ?]. split; [done|]. by right.
  - constructor; [split; [done|by left]|].
    eapply Forall_impl; [apply IH|]. simpl. intros token [? ?]. split; [done|]. by right.
Qed.

End OnePass.

(** *** All the passes *)

Lemma assoc_NoDup lookup key value :
  NoDup lookup.*1 → (key, value) ∈ lookup → assoc key lookup = Some value.
Proof.
  induction lookup as [|[k v'] lookup IH]; simpl; intros Hnodup Hin.
  - by apply elem_of_nil in Hin.
  - apply NoDup_cons in Hnodup as [Hk Hnodup].
    apply elem_of_cons in Hin as [Heq|Hin].
    + injection Heq as -> ->. by rewrite bool_decide_eq_true_2.
    + rewrite bool_decide_eq_false_2; [by apply IH|].
      intros ->. apply Hk. apply list_elem_of_fmap. by exists (key, value).
Qed.

Lemma assoc_None lookup key : key ∉ lookup.*1 → assoc key lookup = None.
Proof.
  induction lookup as [|[k v'] lookup IH]; simpl; intros Hkey; [done|].
  apply not_elem_of_cons in Hkey as [Hne Hkey].
  rewrite bool_decide_eq_false_2 by congruence. by apply IH.
Qed.

Lemma token_inj (p q : string) : token p = token q → p = q.
Proof.
  unfold token. intros H. injection H as H. revert q H.
  induction p as [|a p IH]; intros [|b q] H; simpl in H; try done.
  - injection H as _ H. by destruct q.
  - injection H as _ H. by destruct p.
  - injection H as -> H. f_equal. by apply IH.
Qed.

(** A template none of whose tokens has a placeholder in the table is
    left as it is by the substitution. *)
Lemma substituted_unmatched lookup text tokens :
  Forall (λ tk, token tk.1 ∉ lookup.*1) tokens →
  substituted lookup text tokens = render text tokens.
Proof.
  revert text. induction tokens as [|[name text'] rest IH]; intros text Hnames; [done|].
  apply Forall_cons in Hnames as [Hname Hnames]. simpl in *.
  unfold value_of. rewrite assoc_None by done. simpl. by rewrite IH.
Qed.

Lemma plain_values_cons key value lookup :
  plain_values ((key, value) :: lookup) = true
  ↔ free_of "%" value = true ∧ free_of "$" value = true ∧ plain_values lookup = true.
Proof. unfold plain_values. simpl. rewrite !andb_true_iff. tauto. Qed.

(** The passes of the placeholders [todo], one after the other, turn
    the template into one that the substitution by the whole table
    takes to the same text, and that has no token of [todo] left. *)
Lemma replaceAll_passes lookup todo text tokens :
  NoDup lookup.*1 → todo ⊆ lookup →
  placeholder_keys todo → plain_values todo = true →
  well_formed text tokens = true →
  Forall (λ gap, token gap ∉ todo.*1) (gaps lookup tokens) →
  ∃ text' tokens',
    foldl (λ str '(match_, value), JS.replaceAll match_ value str) (render text tokens) todo
    = render text' tokens'
    ∧ substituted lookup text' tokens' = substituted lookup text tokens
    ∧ Forall (λ tk, token tk.1 ∉ todo.*1) tokens'
    ∧ tokens'.*1 ⊆ tokens.*1.
Proof.
  intros Hnodup. revert text tokens.
  induction todo as [|[key value] todo IH]; intros text tokens Hsub Hkeys Hplain Hwf Hgaps.
  - exists text, tokens. simpl. repeat split; [|done].
    apply Forall_forall. intros tk _. apply not_elem_of_nil.
  - apply Forall_cons in Hkeys as [(p & Hkey & Hp) Hkeys]. simpl in Hkey. subst key.
    apply plain_values_cons in Hplain as (Hvalue & Hdollar & Hplain).
    assert (value_of lookup p = value) as Hvalue_of.
    { unfold value_of. rewrite (assoc_NoDup lookup (token p) value); [done..|].
      apply Hsub. by left. }
    simpl foldl.
    rewrite (replaceAll_pass lookup p value) by
      (done || (eapply Forall_impl; [exact Hgaps|]; simpl; intros gap Hgap ->;
                apply Hgap; by left)).
    destruct (IH (pass p value text tokens).1 (pass p value text tokens).2)
      as (text' & tokens' & Hfold & Hsubst & Hnames & Hsubset).
    + intros entry Hentry. apply Hsub. by right.
    + done.
    + done.
    + by apply pass_well_formed.
    + apply Forall_forall. intros gap Hgap Hin.
      apply (pass_gaps lookup p value Hvalue_of) in Hgap.
      rewrite Forall_forall in Hgaps. apply (Hgaps gap Hgap). by right.
    + exists text', tokens'. split; [exact Hfold|]. split.
      { by rewrite Hsubst, pass_substituted. }
      pose proof (pass_names p value text tokens) as Hpass.
      rewrite Forall_forall in Hpass.
      assert (∀ tk, tk ∈ tokens' → tk.1 ≠ p ∧ tk.1 ∈ tokens.*1) as Hfrom.
      { intros tk Htk.
        assert (tk.1 ∈ (pass p value text tokens).2.*1) as Hin.
        { apply Hsubset. by apply list_elem_of_fmap_2. }
        apply list_elem_of_fmap in Hin as (tk' & -> & Htk'). by apply Hpass. }
      split.
      * apply Forall_forall. intros tk Htk. simpl.
        rewrite Forall_forall in Hnames.
        intros [Heq|Hin]%elem_of_cons.
        -- apply token_inj in Heq. by apply (Hfrom tk Htk).
        -- by apply (Hnames tk Htk).
      * intros name (tk & -> & Htk)%list_elem_of_fmap. by apply (Hfrom tk Htk).
Qed.

(** *** Replacing one character *)

Lemma replaceAll_char_go c (repl before s : string) :
  free_of "$" repl = true →
  JS.replaceAll_go (String c "") repl before 0 s
  = match s with
    | EmptyString => EmptyString
    | String a s' =>
        (if bool_decide (c = a) then repl else String a "")
        +:+ JS.replaceAll_go (String c "") repl "" 0 s'
    end.
Proof.
  intros Hrepl. destruct s as [|a s']; [done|]. simpl.
  rewrite andb_true_r. case_bool_decide.
  - rewrite getSubstitution_plain by done. f_equal. by apply replaceAll_go_before.
  - simpl. f_equal. by apply replaceAll_go_before.
Qed.

(** After the replacement the character is gone. *)
Lemma replaceAll_char_free c (repl s : string) :
  free_of "$" repl = true → free_of c repl = true →
  free_of c (JS.replaceAll (String c "") repl s) = true.
Proof.
  intros Hdollar Hrepl. unfold JS.replaceAll.
  induction s as [|a s IH]; [done|].
  rewrite replaceAll_char_go by done.
  rewrite free_of_app, IH, andb_true_r.
  case_bool_decide; [done|]. simpl.
  rewrite bool_decide_eq_false_2 by congruence. done.
Qed.

(** The replacement brings in no character that neither the text nor
    the replacement has. *)
Lemma replaceAll_char_keeps_free d c (repl s : string) :
  free_of "$" repl = true → free_of d repl = true → free_of d s = true →
  free_of d (JS.replaceAll (String c "") repl s) = true.
Proof.
  intros Hdollar Hrepl. unfold JS.replaceAll.
  induction s as [|a s IH]; intros Hs; [done|].
  apply free_of_cons in Hs as [Ha Hs].
  rewrite replaceAll_char_go by done.
  rewrite free_of_app, IH, andb_true_r by done.
  case_bool_decide; [done|]. simpl.
  rewrite bool_decide_eq_false_2 by done. done.
Qed.

(** *** The formatter *)

Section Formatter.

Variable env : Env.

Lemma formatLookup_keys v : placeholder_keys (formatLookup env v).
Proof.
  unfold placeholder_keys, formatLookup.
  repeat apply Forall_cons_2; [| | | | | | | |apply Forall_nil_2]; simpl.
  - by exists "channelTitle".
  - by exists "year".
  - by exists "month".
  - by exists "day".
  - by exists "hour".
  - by exists "minute".
  - by exists "second".
  - by exists "videoTitle".
Qed.

Lemma formatLookup_NoDup v : NoDup (formatLookup env v).*1.
Proof. apply (bool_decide_unpack _). vm_compute. exact I. Qed.

(** The title as it stands for [%videoTitle%]. *)
Lemma formatLookup_videoTitle v :
  value_of (formatLookup env v) "videoTitle"
  = JS.replaceAll "\" " " (JS.replaceAll "/" " " (JS.replaceAll " - " " " (title v))).
Proof. reflexivity. Qed.

(** C6, as amended: on a template that reads as text and tokens, for
    a video whose placeholder values have no percent and no dollar sign,
    and when no text that comes to stand between two tokens is the name
    of a placeholder, [formatString] gives every token of a placeholder
    its value, at each of its occurrences, and leaves the other tokens
    as they are. The value of [%videoTitle%] is the title after the
    replacement of every [" - "], then of every slash, then of every
    backslash, by a space; it has no slash and no backslash. *)
Theorem formatString_substitutes v text tokens :
  well_formed text tokens = true →
  plain_values (formatLookup env v) = true →
  separated (formatLookup env v) tokens = true →
  formatString env v (render text tokens)
  = substituted (formatLookup env v) text tokens
  ∧ value_of (formatLookup env v) "videoTitle"
    = JS.replaceAll "\" " " (JS.replaceAll "/" " " (JS.replaceAll " - " " " (title v)))
  ∧ free_of "/" (value_of (formatLookup env v) "videoTitle") = true
  ∧ free_of "\" (value_of (formatLookup env v) "videoTitle") = true.
Proof.
  intros Hwf Hplain Hsep. split; [|split; [apply formatLookup_videoTitle|]].
  - destruct (replaceAll_passes (formatLookup env v) (formatLookup env v) text tokens)
      as (text' & tokens' & Hfold & Hsubst & Hnames & _).
    + apply formatLookup_NoDup.
    + done.
    + apply formatLookup_keys.
    + done.
    + done.
    + unfold separated in Hsep. rewrite forallb_forall in Hsep.
      apply Forall_forall. intros gap Hgap%list_elem_of_In.
      specialize (Hsep gap Hgap).
      by apply negb_true_iff, bool_decide_eq_false in Hsep.
    + unfold formatString. rewrite Hfold, <- Hsubst.
      symmetry. by apply substituted_unmatched.
  - rewrite formatLookup_videoTitle. split.
    + apply replaceAll_char_keeps_free; [done..|].
      by apply replaceAll_char_free.
    + by apply replaceAll_char_free.
Qed.

End Formatter.

(** The amended C6 on a template with every kind of token. *)
Lemma formatString_sample :
  formatString Sample.env0 Sample.one_part
    "%channelTitle%/%year%-%month%%day% %videoTitle% [%id%] %year%"
  = "Linus/2021-0507 Ep 1 Intro [%id%] 2021".
Proof.
  assert (well_formed ""
            [("channelTitle", "/"); ("year", "-"); ("month", ""); ("day", " ");
             ("videoTitle", " ["); ("id", "] "); ("year", "")] = true) as Hwf
    by (vm_compute; reflexivity).
  assert (plain_values (formatLookup Sample.env0 Sample.one_part) = true) as Hplain
    by (vm_compute; reflexivity).
  assert (separated (formatLookup Sample.env0 Sample.one_part)
            [("channelTitle", "/"); ("year", "-"); ("month", ""); ("day", " ");
             ("videoTitle", " ["); ("id", "] "); ("year", "")] = true) as Hsep
    by (vm_compute; reflexivity).
  exact (proj1 (formatString_substitutes Sample.env0 Sample.one_part _ _ Hwf Hplain Hsep)).
Defined.

(** C6, as the claim states it, fails: when the channel's title is
    the text [%videoTitle%], the template [%channelTitle%] should give
    that title, and [formatString], which replaces the placeholders one
    after the other, gives the video's title. *)
Lemma formatString_value_with_placeholder :
  well_formed "" [("channelTitle", "")] = true
  ∧ render "" [("channelTitle", "")] = "%channelTitle%"
  ∧ substituted (formatLookup Sample.env0 Sample.placeholder_channel_video)
      "" [("channelTitle", "")]
    = "%videoTitle%"
  ∧ formatString Sample.env0 Sample.placeholder_channel_video "%channelTitle%"
    = "Ep 1 Intro"
  ∧ formatString Sample.env0 Sample.placeholder_channel_video
      (render "" [("channelTitle", "")])
    ≠ substituted (formatLookup Sample.env0 Sample.placeholder_channel_video)
        "" [("channelTitle", "")].
Proof. repeat split; vm_compute; congruence. Qed.

(** A value with dollar signs is not inserted as it is: in a
    replacement text, two dollar signs stand for one. *)
Example formatString_dollar_title :
  value_of (formatLookup Sample.env0 Sample.dollar_title_video) "videoTitle" = "Win $$$ now"
  ∧ formatString Sample.env0 Sample.dollar_title_video "%videoTitle%" = "Win $$ now".
Proof. split; vm_compute; reflexivity. Qed.

(** A text between two tokens that is the name of a placeholder is
    taken for that placeholder. *)
Example formatString_gap :
  separated (formatLookup Sample.env0 Sample.one_part) [("a", "year"); ("b", "")] = false
  ∧ formatString Sample.env0 Sample.one_part "%a%year%b%" = "%a2021b%".
Proof. split; vm_compute; reflexivity. Qed.

(** The tool's usual template. *)
Example formatString_usual_template :
  formatString Sample.env0 Sample.one_part
    "./videos/%channelTitle%/%channelTitle% - S%year%E%month%%day%%hour%%minute%%second% - %videoTitle%"
  = "./videos/Linus/Linus - S2021E0507180500 - Ep 1 Intro".
Proof. vm_compute. reflexivity. Qed.

(** * Further properties *)

(** ** Paths *)

Lemma split_cons c a (s : string) :
  JS.split c (String a s)
  = if bool_decide (a = c) then "" :: JS.split c s
    else match JS.split c s with
         | x :: xs => String a x :: xs
         | [] => [String a ""]
         end.
Proof. reflexivity. Qed.

Lemma split_not_nil c (s : string) : JS.split c s ≠ [].
Proof.
  destruct s as [|a s]; [done|]. rewrite split_cons.
  case_bool_decide; [done|]. by destruct (JS.split c s).
Qed.

(** Splitting and joining again gives the string back. *)
Lemma join_split c (s : string) : JS.join (String c "") (JS.split c s) = s.
Proof.
  induction s as [|a s IH]; [done|]. rewrite split_cons.
  pose proof (split_not_nil c s) as Hne.
  destruct (JS.split c s) as [|x xs] eqn:Hsplit; [done|].
  case_bool_decide as Ha.
  - subst a. change (JS.join (String c "") ("" :: x :: xs))
      with ("" +:+ String c "" +:+ JS.join (String c "") (x :: xs)).
    by rewrite IH.
  - destruct xs as [|y ys]; simpl in *; by rewrite <- IH.
Qed.

(** No segment has the separator. *)
Lemma split_free c (s : string) : Forall (λ x, free_of c x = true) (JS.split c s).
Proof.
  induction s as [|a s IH]; [by repeat constructor|]. rewrite split_cons.
  case_bool_decide as Ha.
  - by constructor.
  - destruct (JS.split c s) as [|x xs].
    + repeat constructor. simpl. by rewrite bool_decide_eq_false_2.
    + apply Forall_cons in IH as [Hx Hxs]. constructor; [|done].
      simpl. by rewrite bool_decide_eq_false_2.
Qed.

(** A string without the separator is its only segment. *)
Lemma split_free_one c (s : string) : free_of c s = true → JS.split c s = [s].
Proof.
  induction s as [|a s IH]; [done|]. intros [Ha Hs]%free_of_cons.
  rewrite split_cons, bool_decide_eq_false_2, IH by done. done.
Qed.

(** A string with the separator has at least two segments. *)
Lemma split_two c (s : string) :
  free_of c s = false → ∃ x y l, JS.split c s = x :: y :: l.
Proof.
  induction s as [|a s IH]; [done|]. rewrite split_cons. simpl.
  pose proof (split_not_nil c s) as Hne.
  case_bool_decide as Ha; simpl.
  - intros _. destruct (JS.split c s) as [|y l]; [done|]. by exists "", y, l.
  - intros (x & y & l & ->)%IH. by exists (String a x), y, l.
Qed.

Lemma join_init_last (sep x y : string) (l : list string) :
  JS.join sep (JS.init (x :: y :: l)) +:+ sep +:+ JS.last (x :: y :: l)
  = JS.join sep (x :: y :: l).
Proof.
  revert x y. induction l as [|z l IH]; intros x y; [done|].
  change (JS.init (x :: y :: z :: l)) with (x :: JS.init (y :: z :: l)).
  change (JS.last (x :: y :: z :: l)) with (JS.last (y :: z :: l)).
  change (JS.join sep (x :: y :: z :: l)) with (x +:+ sep +:+ JS.join sep (y :: z :: l)).
  rewrite <- IH.
  destruct (JS.init (y :: z :: l)) as [|u us] eqn:Hinit; [done|].
  change (JS.join sep (x :: u :: us)) with (x +:+ sep +:+ JS.join sep (u :: us)).
  by rewrite !str_app_assoc.
Qed.

Lemma last_elem (l : list string) : l ≠ [] → JS.last l ∈ l.
Proof.
  unfold JS.last. induction l as [|x l IH]; [done|]. intros _.
  destruct l as [|y l]; [by left|]. right. by apply IH.
Qed.

Section Paths.

Variable env : Env.

(** X1: when the formatted path has a slash, the folder path and the
    last segment, joined by a slash, are the formatted path; the last
    segment has no slash, and the file path is the folder path, a slash
    and the sanitized last segment. *)
Theorem filePath_folder_and_last v :
  free_of "/" (fullPath env v) = false →
  ∃ last,
    fullPath env v = folderPath env v +:+ "/" +:+ last
    ∧ free_of "/" last = true
    ∧ filePath env v = folderPath env v +:+ "/" +:+ sanitize env last.
Proof.
  intros Hslash. exists (JS.last (JS.split "/" (fullPath env v))).
  destruct (split_two "/" _ Hslash) as (x & y & l & Hsplit).
  split; [|split; [|done]].
  - unfold folderPath. rewrite Hsplit, join_init_last, <- Hsplit.
    symmetry. apply join_split.
  - pose proof (split_free "/" (fullPath env v)) as Hfree.
    rewrite Forall_forall in Hfree. apply Hfree.
    apply last_elem, split_not_nil.
Qed.

(** X2: when the formatted path has no slash, the folder path is empty
    and the file path is a slash followed by the sanitized formatted
    path. *)
Theorem filePath_without_folder v :
  free_of "/" (fullPath env v) = true →
  folderPath env v = ""
  ∧ filePath env v = "/" +:+ sanitize env (fullPath env v).
Proof.
  intros Hfree. unfold filePath, folderPath.
  by rewrite (split_free_one _ _ Hfree).
Qed.

End Paths.

(** ** Part files *)

Lemma str_app_cancel_r (s s' t : string) : s +:+ t = s' +:+ t → s = s'.
Proof.
  intros H.
  assert (String.length s = String.length s') as Hlen.
  { apply (f_equal String.length) in H. rewrite !str_length_app in H. lia. }
  revert s' H Hlen. induction s as [|a s IH]; intros [|b s'] H Hlen; try done.
  rewrite !str_app_cons in H. injection H as -> H. f_equal.
  apply IH; [done|]. simpl in Hlen. lia.
Qed.

(** The last character of a string, if any. *)
Lemma str_app_last_char (s t : string) a b :
  s +:+ String a "" = t +:+ String b "" → a = b.
Proof.
  revert t. induction s as [|c s IH]; intros [|d t] H.
  - by injection H.
  - rewrite str_app_nil_l, str_app_cons in H. injection H as _ H. by destruct t.
  - rewrite str_app_nil_l, str_app_cons in H. injection H as _ H. by destruct s.
  - rewrite !str_app_cons in H. injection H as _ H. by apply (IH t).
Qed.

Section PartFiles.

Variable env : Env.

(** X3: two parts of a video never share a file of the same
    extension, and a [.partial] file is never an [.mp4] file. *)
Theorem partFile_distinct v (i j : nat) extension :
  (i < length (videoAttachments v))%nat →
  (j < length (videoAttachments v))%nat →
  (partFile env v i extension = partFile env v j extension → i = j)
  ∧ partFile env v i "partial" ≠ partFile env v j "mp4".
Proof.
  intros Hi Hj. split.
  - unfold partFile, multiPartSuffix. case_bool_decide as Hmany.
    + intros H. apply (inj (String.app _)) in H.
      rewrite !str_app_assoc in H. apply (inj (String.app _)) in H.
      apply str_app_cancel_r in H. apply (inj pretty) in H. lia.
    + intros _. lia.
  - unfold partFile. intros H.
    change ("." +:+ "partial") with (".partia" +:+ "l") in H.
    change ("." +:+ "mp4") with (".mp" +:+ "4") in H.
    rewrite <- !str_app_assoc in H.
    by apply str_app_last_char in H.
Qed.

End PartFiles.

(** ** Sizes *)

Section Sizes.

Variable env : Env.

Lemma sum_over_bounds (fs : gmap string N) (path : nat → string) (l : list nat) :
  - Z.of_nat (length l) ≤ sum_over (λ i, getFileBytes fs (path i)) l
  ∧ (sum_over (λ i, getFileBytes fs (path i)) l = - Z.of_nat (length l)
     ↔ Forall (λ i, fs !! path i = None) l).
Proof.
  induction l as [|i l [IHle IHeq]]; simpl.
  - split; [lia|]. split; [by constructor|done].
  - unfold getFileBytes at 1 3. destruct (fs !! path i) as [size|] eqn:Hi.
    + pose proof (N2Z.is_nonneg size) as Hsize. split; [lia|]. split.
      * intros Hsum. lia.
      * intros [Hnone _]%Forall_cons. simpl in Hnone. congruence.
    + split; [lia|]. rewrite Forall_cons, <- IHeq. split; [intros; split; [done|lia]|].
      intros [_ ?]. lia.
Qed.

(** X4: [fileBytes] is never less than minus the number of parts, and
    it is minus the number of parts exactly when no part has a file. *)
Theorem fileBytes_lower_bound fs v extension :
  - Z.of_nat (length (videoAttachments v)) ≤ fileBytes env fs v extension
  ∧ (fileBytes env fs v extension = - Z.of_nat (length (videoAttachments v))
     ↔ ∀ i, (i < length (videoAttachments v))%nat →
            fs !! partFile env v i extension = None).
Proof.
  rewrite fileBytes_sum.
  pose proof (sum_over_bounds fs (λ i, partFile env v i extension) (indices v)) as [Hle Heq].
  unfold indices in *. rewrite length_seq in *. split; [done|].
  rewrite Heq, Forall_forall. split.
  - intros H i Hi. apply H. apply elem_of_seq. lia.
  - intros H i Hi%elem_of_seq. apply H. lia.
Qed.

(** X5: a video without video attachments counts as muxed whenever
    [considerAllNonPartialDownloaded] is on, so that [download] refuses
    it in every world. *)
Theorem download_no_attachments v quality w :
  videoAttachments v = [] →
  considerAllNonPartialDownloaded (settings env) = true →
  isMuxed env w v = true
  ∧ download env v quality w
    = (w, inl (Error ("Attempting to download " +:+ JS.dquote +:+ title v +:+ JS.dquote
                      +:+ " video already downloaded!"))).
Proof.
  intros Hnone Hflag.
  assert (isMuxed env w v = true) as Hmuxed.
  { unfold isMuxed, fileBytes, indices. by rewrite Hflag, Hnone. }
  split; [done|].
  unfold download, isDownloaded, mbind, M_bind, get. simpl. by rewrite Hmuxed.
Qed.

End Sizes.

(** ** Qualities and edges *)

Section Delivery.

Variable env : Env.

Lemma insert_sorted_descending x l :
  numeric env x → Forall (numeric env) l →
  StronglySorted (descending env) l →
  StronglySorted (descending env) (JS.insert_sorted (by_number_descending env) x l).
Proof.
  intros Hx. induction l as [|y ys IH]; intros Hl Hsorted; simpl.
  - by repeat constructor.
  - apply Forall_cons in Hl as [Hy Hys].
    apply StronglySorted_inv in Hsorted as [Hsorted Hbound].
    rewrite (by_number_descending_numeric env x y) by done.
    case_bool_decide as Hle.
    + constructor; [by constructor|]. constructor; [unfold descending; lia|].
      eapply Forall_impl; [exact Hbound|]. unfold descending. simpl. intros z Hz. lia.
    + constructor; [by apply IH|].
      rewrite insert_sorted_perm. constructor; [unfold descending; lia|done].
Qed.

(** X6: when every label reads as a number, the available qualities
    are the labels of the ticket, each as often as the ticket has it,
    from the highest number down. *)
Theorem availableQualities_sorted cdnInfo :
  Forall (numeric env) (quality_names cdnInfo) →
  availableQualities env cdnInfo ≡ₚ quality_names cdnInfo
  ∧ StronglySorted (descending env) (availableQualities env cdnInfo).
Proof.
  intros Hnum. unfold availableQualities. split; [apply sort_perm|].
  induction (quality_names cdnInfo) as [|x l IH]; simpl; [constructor|].
  apply Forall_cons in Hnum as [Hx Hl].
  apply insert_sorted_descending; [done| |by apply IH].
  fold (JS.sort (by_number_descending env) l). by rewrite sort_perm.
Qed.

(** X7: whatever the labels are, the quality to download is undefined
    exactly when the ticket has no label; otherwise it is a label of
    the ticket or the requested quality, and it is the requested
    quality whenever the ticket has it. *)
Theorem downloadQuality_cases cdnInfo quality :
  (downloadQuality env cdnInfo quality = None ↔ quality_names cdnInfo = [])
  ∧ (∀ chosen, downloadQuality env cdnInfo quality = Some chosen →
               chosen ∈ quality_names cdnInfo)
  ∧ (quality ∈ quality_names cdnInfo →
     downloadQuality env cdnInfo quality = Some quality).
Proof.
  unfold downloadQuality, JS.includes, availableQualities.
  pose proof (sort_perm (by_number_descending env) (quality_names cdnInfo)) as Hperm.
  destruct (JS.sort (by_number_descending env) (quality_names cdnInfo))
    as [|first rest] eqn:Hsort.
  - apply Permutation_nil_l in Hperm. rewrite <- Hperm.
    rewrite bool_decide_eq_false_2 by apply not_elem_of_nil.
    repeat split; try done. intros Hin. by apply elem_of_nil in Hin.
  - assert (quality_names cdnInfo ≠ []) as Hne.
    { intros Hnil. rewrite Hnil in Hperm. by apply Permutation_nil_r in Hperm. }
    repeat split.
    + case_bool_decide; done.
    + done.
    + intros chosen. case_bool_decide as Hin; intros [= <-]; rewrite <- Hperm; [done|by left].
    + intros Hin. rewrite bool_decide_eq_true_2; [done|]. by rewrite Hperm.
Qed.

Lemma Qfloor_index (r : Q) (n : nat) :
  (0 <= r)%Q → (r < 1)%Q → (0 < n)%nat →
  0 ≤ Qfloor (r * inject_Z (Z.of_nat n)) < Z.of_nat n.
Proof.
  intros H0 H1 Hn.
  assert (0 < inject_Z (Z.of_nat n))%Q as Hpos.
  { change 0%Q with (inject_Z 0). rewrite <- Zlt_Qlt. lia. }
  split.
  - change 0 with (Qfloor 0). apply Qfloor_resp_le.
    apply Qmult_le_0_compat; [done|]. by apply Qlt_le_weak.
  - rewrite Zlt_Qlt. eapply Qle_lt_trans; [apply Qfloor_le|].
    rewrite <- (Qmult_1_l (inject_Z (Z.of_nat n))) at 2.
    by apply Qmult_lt_r.
Qed.

(** An index in range names an element. *)
Lemma at_index_in_range {A} (l : list A) (i : Z) :
  0 ≤ i < Z.of_nat (length l) → ∃ x, at_index l i = Some x ∧ x ∈ l.
Proof.
  intros [Hlo Hhi]. unfold at_index. rewrite bool_decide_eq_true_2 by done.
  destruct (lookup_lt_is_Some_2 l (Z.to_nat i)) as [x Hx]; [lia|].
  exists x. split; [done|]. by eapply list_elem_of_lookup_2.
Qed.

Lemma length_pos {A} (l : list A) : l ≠ [] → (0 < length l)%nat.
Proof. destruct l; [done|simpl; lia]. Qed.

(** X8: with a random number from 0 up to, but not, 1 and a ticket
    that has edges, the edge picked is one of the ticket's. *)
Theorem picked_edge_in_ticket {A} (edges : list A) (r : Q) :
  (0 <= r)%Q → (r < 1)%Q → edges ≠ [] →
  ∃ edge, at_index edges (Qfloor (r * inject_Z (Z.of_nat (length edges)))) = Some edge
          ∧ edge ∈ edges.
Proof.
  intros H0 H1 Hne. apply at_index_in_range.
  apply Qfloor_index; [done..|]. by apply length_pos.
Qed.

End Delivery.

(** ** Download *)

Section Download.

Variable env : Env.

(** A ticket with edges and a random number in range: what one
    iteration of the loop does. *)
Lemma download_part_run v quality i attachment w es :
  edges (cdn_delivery env "download" attachment) = Some es → es ≠ [] →
  (0 <= math_random env i)%Q → (math_random env i < 1)%Q →
  ∃ host more,
    download_part env v quality i attachment w
    = ({| files := files w; videoDB := videoDB w;
          trace := trace w
                   ++ CdnDelivery "download" attachment
                   :: StreamToFile
                        ("https://" +:+ host
                         +:+ request_path env (cdn_delivery env "download" attachment) quality)
                        (partFile env v i "partial")
                   :: more |},
       inr ("https://" +:+ host
            +:+ request_path env (cdn_delivery env "download" attachment) quality))
    ∧ (floatplane_downloadEdge (settings env) ≠ "" →
       host = floatplane_downloadEdge (settings env))
    ∧ (floatplane_downloadEdge (settings env) = "" →
       ∃ edge, edge ∈ es ∧ host = hostname edge).
Proof.
  intros Hedges Hne H0 H1.
  destruct (at_index_in_range es (Qfloor (math_random env i * inject_Z (Z.of_nat (length es)))))
    as (edge & Hpick & Hin).
  { apply Qfloor_index; [done..|]. by apply length_pos. }
  unfold download_part. rewrite Hedges. destruct w as [fs db tr].
  unfold request_path. run_M. rewrite Hpick.
  case_bool_decide as Hoverride; run_M.
  - exists (floatplane_downloadEdge (settings env)).
    unfold expectedSize. simpl. destruct (db !! guid v); run_M.
    + exists []. rewrite <- !app_assoc. simpl. split; [done|]. split; [done|].
      intros Hempty. by rewrite Hempty in Hoverride.
    + eexists [_]. rewrite <- !app_assoc. simpl. split; [done|]. split; [done|].
      intros Hempty. by rewrite Hempty in Hoverride.
  - exists (hostname edge).
    unfold expectedSize. simpl. destruct (db !! guid v); run_M.
    + exists []. rewrite <- !app_assoc. simpl. split; [done|]. split; [done|].
      intros _. by exists edge.
    + eexists [_]. rewrite <- !app_assoc. simpl. split; [done|]. split; [done|].
      intros _. by exists edge.
Qed.

(** Making a folder where one can be made. *)
Lemma mkdir_run path w :
  folder_can_be_made (files w) path →
  mkdir path w
  = ({| files := files w; videoDB := videoDB w; trace := trace w ++ [Mkdir path] |},
     inr ()).
Proof.
  intros [Hpath Hfree]. apply Forall_cons in Hfree as [Hhere Habove].
  unfold mkdir. unfold mbind, M_bind, get.
  rewrite bool_decide_eq_false_2 by done.
  rewrite bool_decide_eq_false_2.
  2:{ intros (above & Hin & [size Hsize])%Exists_exists.
      rewrite Forall_forall in Habove. specialize (Habove above Hin). congruence. }
  rewrite bool_decide_eq_false_2; [done|].
  intros [size Hsize]. congruence.
Qed.

(** Making a folder adds its event or throws and changes nothing. *)
Lemma mkdir_cases path w :
  mkdir path w
  = ({| files := files w; videoDB := videoDB w; trace := trace w ++ [Mkdir path] |},
     inr ())
  ∨ ∃ e, mkdir path w = (w, inl e).
Proof.
  unfold mkdir. unfold mbind, M_bind, get.
  repeat case_bool_decide; eauto.
Qed.

(** Before the loop: the folder, the artwork and the [.nfo] file. Once
    the folder is made, none of this fails. *)
Lemma download_prelude v quality w :
  isDownloaded env w v = false →
  folder_can_be_made (files w) (folderPath env v) →
  ∃ w1 more,
    download env v quality w
    = mapM (λ '(i, attachment), download_part env v quality i attachment)
           (imap pair (videoAttachments v)) w1
    ∧ trace w1 = trace w ++ Mkdir (folderPath env v) :: more
    ∧ videoDB w1 = videoDB w.
Proof.
  intros Hnot Hfolder. unfold download. unfold mbind at 1, M_bind at 1, get at 1.
  rewrite Hnot. unfold mbind at 1, M_bind at 1. rewrite (mkdir_run _ _ Hfolder).
  destruct w as [fs db tr]. unfold writeFile, utimes.
  destruct (extras_downloadArtwork (settings env)), (thumbnail v) as [thumb|],
    (extras_saveNfo (settings env)); run_M;
    rewrite ?lookup_insert_eq; run_M; rewrite <- ?app_assoc; simpl;
    eexists _, _; (split; [reflexivity|]); simpl; split; reflexivity.
Qed.

(** The loop over deliverable attachments starts one request each. *)
Lemma download_parts_run v quality (l : list (nat * string)) w :
  Forall (λ part, deliverable env part.1 part.2) l →
  ∃ w' urls,
    mapM (λ '(i, attachment), download_part env v quality i attachment) l w
    = (w', inr urls)
    ∧ length urls = length l
    ∧ trace w `prefix_of` trace w'
    ∧ ∀ k i attachment url,
        l !! k = Some (i, attachment) → urls !! k = Some url →
        StreamToFile url (partFile env v i "partial") ∈ trace w'.
Proof.
  revert w. induction l as [|[i attachment] l IH]; intros w Hl.
  - exists w, []. by repeat split.
  - apply Forall_cons in Hl as [((es & Hedges & Hne) & H0 & H1) Hl]. simpl in *.
    destruct (download_part_run v quality i attachment w es Hedges Hne H0 H1)
      as (host & more & Hrun & _).
    unfold mbind at 1, M_bind at 1. rewrite Hrun.
    unfold mbind at 1, M_bind at 1.
    match goal with |- context [mapM _ l ?w1] =>
      destruct (IH w1 Hl) as (w' & urls & Hloop & Hlen & Hprefix & Hstreams) end.
    rewrite Hloop.
    eexists w', (_ :: urls). split; [reflexivity|]. simpl in Hprefix.
    split; [simpl; by rewrite Hlen|]. split.
    + etrans; [|exact Hprefix]. by apply prefix_app_r.
    + intros [|k] i' attachment' url Hk Hurl; simpl in *.
      * injection Hk as <- <-. injection Hurl as <-.
        eapply elem_of_prefix; [|exact Hprefix].
        apply elem_of_app. right. right. by left.
      * by eapply Hstreams.
Qed.

(** X10: for a video that is not downloaded, when its folder can be
    made (the folder path is not empty, and neither it nor a folder
    above it is a file), every attachment gets a ticket with edges and
    the random numbers are in range, [download] returns: it makes the
    folder and returns one request per attachment, each streamed to the
    [.partial] file of its part. *)
Theorem download_starts_every_part v quality w :
  isDownloaded env w v = false →
  folder_can_be_made (files w) (folderPath env v) →
  (∀ i attachment, videoAttachments v !! i = Some attachment → deliverable env i attachment) →
  ∃ w' urls,
    download env v quality w = (w', inr urls)
    ∧ length urls = length (videoAttachments v)
    ∧ Mkdir (folderPath env v) ∈ trace w'
    ∧ ∀ i url, urls !! i = Some url →
               StreamToFile url (partFile env v i "partial") ∈ trace w'.
Proof.
  intros Hnot Hfolder Hparts.
  destruct (download_prelude v quality w Hnot Hfolder) as (w1 & more & -> & Htrace & _).
  destruct (download_parts_run v quality (imap pair (videoAttachments v)) w1)
    as (w' & urls & Hloop & Hlen & Hprefix & Hstreams).
  { apply Forall_forall. intros [i attachment] Hin.
    apply list_elem_of_lookup in Hin as [k Hk].
    rewrite list_lookup_imap in Hk.
    destruct (videoAttachments v !! k) as [a|] eqn:Ha; [|done].
    injection Hk as <- <-. by apply Hparts. }
  exists w', urls. split; [done|]. rewrite length_imap in Hlen. split; [done|]. split.
  - eapply elem_of_prefix; [|exact Hprefix]. rewrite Htrace.
    apply elem_of_app. right. by left.
  - intros i url Hurl.
    assert (is_Some (videoAttachments v !! i)) as [attachment Ha].
    { apply lookup_lt_is_Some. rewrite <- Hlen. by eapply lookup_lt_Some. }
    apply (Hstreams i i attachment url); [|done].
    by rewrite list_lookup_imap, Ha.
Qed.

(** The loop stops at the first attachment whose ticket has no edge
    set; the requests started before it stay started. *)
Lemma download_parts_stop v quality (l : list (nat * string)) i attachment rest w :
  Forall (λ part, deliverable env part.1 part.2) l →
  edges (cdn_delivery env "download" attachment) = None →
  ∃ w',
    mapM (λ '(i, attachment), download_part env v quality i attachment)
         (l ++ (i, attachment) :: rest) w
    = (w', inl (Error "No edges found for video"))
    ∧ trace w `prefix_of` trace w'
    ∧ ∀ k j a, l !! k = Some (j, a) →
               ∃ url, StreamToFile url (partFile env v j "partial") ∈ trace w'.
Proof.
  intros Hl Hnone. revert w. induction l as [|[j a] l IH]; intros w.
  - simpl. unfold mbind at 1, M_bind at 1.
    rewrite (download_part_edges_undefined env v quality i attachment w Hnone).
    eexists. split; [reflexivity|]. split; [by apply prefix_app_r|]. by intros k ? ? ?.
  - apply Forall_cons in Hl as [((es & Hedges & Hne) & H0 & H1) Hl]. simpl in *.
    destruct (download_part_run v quality j a w es Hedges Hne H0 H1)
      as (host & more & Hrun & _).
    unfold mbind at 1, M_bind at 1. rewrite Hrun.
    unfold mbind at 1, M_bind at 1.
    match goal with |- context [mapM _ _ ?w1] =>
      destruct (IH Hl w1) as (w' & Hloop & Hprefix & Hstreams) end.
    rewrite Hloop. exists w'. split; [done|]. simpl in Hprefix. split.
    + etrans; [|exact Hprefix]. by apply prefix_app_r.
    + intros [|k] j' a' Hk; simpl in *.
      * injection Hk as <- <-. eexists.
        eapply elem_of_prefix; [|exact Hprefix].
        apply elem_of_app. right. right. by left.
      * by eapply Hstreams.
Qed.

(** X11: for a video that is not downloaded and whose folder can be
    made, when the ticket of an attachment has no edge set, and the
    attachments before it were deliverable, [download] throws the "no
    edges" error; by then it has made the folder and started the
    requests of the earlier parts, which it does not return. *)
Theorem download_stops_without_edges v quality w before attachment after :
  isDownloaded env w v = false →
  folder_can_be_made (files w) (folderPath env v) →
  videoAttachments v = before ++ attachment :: after →
  (∀ i a, before !! i = Some a → deliverable env i a) →
  edges (cdn_delivery env "download" attachment) = None →
  ∃ w',
    download env v quality w = (w', inl (Error "No edges found for video"))
    ∧ Mkdir (folderPath env v) ∈ trace w'
    ∧ ∀ i, (i < length before)%nat →
           ∃ url, StreamToFile url (partFile env v i "partial") ∈ trace w'.
Proof.
  intros Hnot Hfolder Hsplit Hbefore Hnone.
  destruct (download_prelude v quality w Hnot Hfolder) as (w1 & more & -> & Htrace & _).
  rewrite Hsplit, imap_app. simpl.
  destruct (download_parts_stop v quality (imap pair before) (length before + 0)
              attachment (imap (pair ∘ (λ n, length before + n)%nat ∘ S) after) w1)
    as (w' & Hloop & Hprefix & Hstreams); [|done|].
  { apply Forall_forall. intros [i a] Hin.
    apply list_elem_of_lookup in Hin as [k Hk].
    rewrite list_lookup_imap in Hk.
    destruct (before !! k) as [a'|] eqn:Ha; [|done].
    injection Hk as <- <-. by apply Hbefore. }
  exists w'. split; [exact Hloop|]. split.
  - eapply elem_of_prefix; [|exact Hprefix]. rewrite Htrace.
    apply elem_of_app. right. by left.
  - intros i Hi. destruct (lookup_lt_is_Some_2 before i Hi) as [a Ha].
    apply (Hstreams i i a). by rewrite list_lookup_imap, Ha.
Qed.

(** X9: the request of one iteration goes to the override host when
    one is configured, and to the host of one of the ticket's edges
    otherwise. *)
Theorem download_part_host v quality i attachment w es :
  edges (cdn_delivery env "download" attachment) = Some es → es ≠ [] →
  (0 <= math_random env i)%Q → (math_random env i < 1)%Q →
  ∃ w' host,
    download_part env v quality i attachment w
    = (w', inr ("https://" +:+ host
                +:+ request_path env (cdn_delivery env "download" attachment) quality))
    ∧ (floatplane_downloadEdge (settings env) ≠ "" →
       host = floatplane_downloadEdge (settings env))
    ∧ (floatplane_downloadEdge (settings env) = "" →
       ∃ edge, edge ∈ es ∧ host = hostname edge).
Proof.
  intros Hedges Hne H0 H1.
  destruct (download_part_run v quality i attachment w es Hedges Hne H0 H1)
    as (host & more & Hrun & Hhost).
  by eexists _, host.
Qed.

End Download.

(** ** Finaliser *)

Section Finaliser.

Variable env : Env.

Lemma partFile_partial_mp4 v i j :
  partFile env v i "partial" ≠ partFile env v j "mp4".
Proof.
  unfold partFile. intros H.
  change ("." +:+ "partial") with (".partia" +:+ "l") in H.
  change ("." +:+ "mp4") with (".mp" +:+ "4") in H.
  rewrite <- !str_app_assoc in H.
  by apply str_app_last_char in H.
Qed.

Lemma for_each_cons {A} (x : A) (l : list A) (body : A → M unit) w :
  for_each (x :: l) body w
  = match body x w with
    | (w', inr _) => for_each l body w'
    | (w', inl e) => (w', inl e)
    end.
Proof. reflexivity. Qed.

Lemma cleanup_run v i w :
  cleanup env v i w
  = match files w !! partFile env v i "partial" with
    | None => (w, inl (enoent "unlink" (partFile env v i "partial")))
    | Some _ =>
        match files w !! partFile env v i "mp4" with
        | Some _ =>
            ({| files := delete (partFile env v i "partial") (files w);
                videoDB := videoDB w;
                trace := trace w ++ [Unlink (partFile env v i "partial");
                                     Utimes (partFile env v i "mp4") (releaseDate v)] |},
             inr ())
        | None =>
            ({| files := delete (partFile env v i "partial") (files w);
                videoDB := videoDB w;
                trace := trace w ++ [Unlink (partFile env v i "partial")] |},
             inl (enoent "utime" (partFile env v i "mp4")))
        end
    end.
Proof.
  destruct w as [fs db tr]. unfold cleanup, unlink, utimes. run_M.
  destruct (fs !! partFile env v i "partial") as [size|] eqn:Hpartial; run_M; [|done].
  rewrite lookup_delete_ne by apply partFile_partial_mp4.
  destruct (fs !! partFile env v i "mp4"); run_M; by rewrite <- ?app_assoc.
Qed.

Lemma lookup_delete_None (fs : gmap string N) (removed path : string) :
  fs !! path = None → delete removed fs !! path = None.
Proof.
  intros Hnone. destruct (decide (removed = path)) as [<-|Hne].
  - apply lookup_delete_eq.
  - by rewrite lookup_delete_ne.
Qed.

(** What the clean-up loop keeps and what it has done when it returns. *)
Lemma cleanup_loop v (l : list nat) w :
  videoDB (for_each l (cleanup env v) w).1 = videoDB w
  ∧ trace w `prefix_of` trace (for_each l (cleanup env v) w).1
  ∧ (∀ j, files (for_each l (cleanup env v) w).1 !! partFile env v j "mp4"
          = files w !! partFile env v j "mp4")
  ∧ (∀ path, files w !! path = None →
             files (for_each l (cleanup env v) w).1 !! path = None)
  ∧ ((for_each l (cleanup env v) w).2 = inr () →
     ∀ i, i ∈ l → files (for_each l (cleanup env v) w).1 !! partFile env v i "partial" = None).
Proof.
  revert w. induction l as [|i l IH]; intros w.
  - simpl. repeat split; try done. intros _ i Hi. by apply elem_of_nil in Hi.
  - rewrite for_each_cons, cleanup_run.
    destruct (files w !! partFile env v i "partial") as [size|] eqn:Hpartial.
    2:{ by repeat split. }
    destruct (files w !! partFile env v i "mp4") as [size'|] eqn:Hmp4.
    2:{ simpl. repeat split; try done.
        - by apply prefix_app_r.
        - intros j. by rewrite lookup_delete_ne by apply partFile_partial_mp4.
        - intros path. apply lookup_delete_None. }
    match goal with |- context [for_each l (cleanup env v) ?w1] =>
      destruct (IH w1) as (Hdb & Hprefix & Hmp4s & Hnone & Hdone) end.
    simpl in *. split; [done|]. split; [|split; [|split]].
    + etrans; [|exact Hprefix]. by apply prefix_app_r.
    + intros j. rewrite Hmp4s. by rewrite lookup_delete_ne by apply partFile_partial_mp4.
    + intros path Hpath. by apply Hnone, lookup_delete_None.
    + intros Hok i' [->|Hi']%elem_of_cons.
      * apply Hnone. apply lookup_delete_eq.
      * by apply Hdone.
Qed.


Lemma markCompleted_run v w :
  markCompleted env v w
  = if isMuxed env w v
    then ({| files := files w; videoDB := videoDB w;
             trace := trace w ++ [MarkVideoCompleted (guid v) (getTime (releaseDate v))] |},
          inr ())
    else (w, inl (Error ("Cannot mark " +:+ title v
                         +:+ " as completed as video file size is not correct. Expected: "
                         +:+ JS.show (expectedSize w v) +:+ " bytes, Got: "
                         +:+ pretty (fileBytes env (files w) v "mp4") +:+ " bytes..."))).
Proof.
  unfold markCompleted. unfold mbind, M_bind, get. by destruct (isMuxed env w v).
Qed.


(** [muxffmpegMetadata] after the transcoder runs. *)
Lemma muxffmpegMetadata_run v w :
  ∃ w1 outcomes,
    mapM (execFile_ffmpeg env v) (indices v) w = (w1, inr outcomes)
    ∧ videoDB w1 = videoDB w
    ∧ trace w1 = trace w ++ transcoder_events env v
    ∧ muxffmpegMetadata env v w
      = match omap id outcomes with
        | e :: _ => (w1, inl e)
        | [] =>
            (markCompleted env v;; for_each (indices v) (cleanup env v))
              (set_expectedSize v (Some (fileBytes env (files w1) v "mp4")) w1)
        end.
Proof.
  destruct (transcoder_runs env v (indices v) w) as (fs & outcomes & Hruns).
  eexists _, outcomes. split; [exact Hruns|]. split; [done|]. split; [done|].
  rewrite muxffmpegMetadata_unguarded. unfold mbind at 1, M_bind at 1.
  rewrite Hruns. unfold await_all.
  destruct (omap id outcomes) as [|e rest]; reflexivity.
Qed.

(** X12: when a transcoder run is rejected, [muxffmpegMetadata] throws
    the error of a rejected run; every part has been given to the
    transcoder by then, and the expected size is as it was. *)
Theorem muxffmpegMetadata_rejected v w w1 outcomes :
  mapM (execFile_ffmpeg env v) (indices v) w = (w1, inr outcomes) →
  omap id outcomes ≠ [] →
  (∃ e, Some e ∈ outcomes ∧ muxffmpegMetadata env v w = (w1, inl e))
  ∧ expectedSize w1 v = expectedSize w v
  ∧ trace w1 = trace w ++ transcoder_events env v.
Proof.
  intros Hruns Hrejected.
  destruct (muxffmpegMetadata_run v w) as (w1' & outcomes' & Hruns' & Hdb & Htrace & ->).
  rewrite Hruns in Hruns'. injection Hruns' as <- <-.
  split; [|split; [unfold expectedSize; by rewrite Hdb|done]].
  destruct (omap id outcomes) as [|e rest] eqn:Homap; [done|].
  exists e. split; [|done].
  assert (e ∈ omap id outcomes) as Hin by (rewrite Homap; by left).
  apply list_elem_of_omap in Hin as (o & Ho & Hid). simpl in Hid. by subst o.
Qed.

(** X13: with [considerAllNonPartialDownloaded] off, when no
    transcoder run is rejected the video is marked completed whatever
    the files are: the expected size has just been set to the size
    that the check compares it with. *)
Theorem muxffmpegMetadata_marks_completed v w w1 outcomes :
  considerAllNonPartialDownloaded (settings env) = false →
  mapM (execFile_ffmpeg env v) (indices v) w = (w1, inr outcomes) →
  omap id outcomes = [] →
  MarkVideoCompleted (guid v) (getTime (releaseDate v))
  ∈ trace (muxffmpegMetadata env v w).1
  ∧ expectedSize (muxffmpegMetadata env v w).1 v
    = Some (fileBytes env (files w1) v "mp4").
Proof.
  intros Hflag Hruns Hok.
  destruct (muxffmpegMetadata_run v w) as (w1' & outcomes' & Hruns' & Hdb & Htrace & ->).
  rewrite Hruns in Hruns'. injection Hruns' as <- <-. rewrite Hok.
  unfold mbind, M_bind. rewrite markCompleted_run.
  assert (isMuxed env (set_expectedSize v (Some (fileBytes env (files w1) v "mp4")) w1) v
          = true) as ->.
  { unfold isMuxed, expectedSize. rewrite Hflag. simpl.
    rewrite lookup_insert_eq. simpl. by apply bool_decide_eq_true_2. }
  match goal with |- context [for_each _ _ ?w3] =>
    destruct (cleanup_loop v (indices v) w3) as (Hdb3 & Hprefix & _) end.
  split.
  - eapply elem_of_prefix; [|exact Hprefix]. simpl. apply elem_of_app. right. by left.
  - unfold expectedSize. rewrite Hdb3. simpl. apply lookup_insert_eq.
Qed.


End Finaliser.

(** ** Templates without placeholders, titles, attachments *)

(** A pattern that starts with a percent sign has no match in a text
    without one, whatever the replacement. *)
Lemma replaceAll_go_percent_free (p repl before s : string) :
  free_of "%" s = true →
  JS.replaceAll_go (String "%" p) repl before 0 s = s.
Proof.
  revert before. induction s as [|a s IH]; intros before Hs; [done|].
  apply free_of_cons in Hs as [Ha Hs]. simpl.
  rewrite bool_decide_eq_false_2 by congruence. simpl. by rewrite IH.
Qed.

(** Text without a percent sign before a part that a placeholder leaves
    alone is left alone with it. *)
Lemma replaceAll_go_text_kept (p value text s : string) :
  free_of "%" text = true →
  (∀ before, JS.replaceAll_go (token p) value before 0 s = s) →
  ∀ before, JS.replaceAll_go (token p) value before 0 (text +:+ s) = text +:+ s.
Proof.
  intros Htext Hs. induction text as [|a text IH]; intros before; [apply Hs|].
  apply free_of_cons in Htext as [Ha Htext]. rewrite !str_app_cons. simpl.
  rewrite bool_decide_eq_false_2 by congruence. simpl. by rewrite IH.
Qed.

(** A placeholder leaves the token of another name alone, whatever its
    own value. *)
Lemma replaceAll_go_other_token (p q value pre post : string) :
  free_of "%" p = true → free_of "%" q = true → p ≠ q →
  free_of "%" pre = true → free_of "%" post = true →
  ∀ before,
    JS.replaceAll_go (token p) value before 0 (pre +:+ token q +:+ post)
    = pre +:+ token q +:+ post.
Proof.
  intros Hp Hq Hpq Hpre Hpost. apply replaceAll_go_text_kept; [done|].
  intros before. rewrite token_app. simpl.
  rewrite (starts_with_name p q post Hp Hq), bool_decide_eq_false_2 by done.
  f_equal. apply replaceAll_go_text_kept; [done|].
  intros before'. simpl.
  rewrite (starts_with_name_open p post Hpost). f_equal.
  apply replaceAll_go_percent_free, Hpost.
Qed.

(** A global replacement by a text without dollar signs adds no
    character that neither the input nor the replacement has. *)
Lemma replaceAll_go_keeps_free d (pat repl before : string) skip (s : string) :
  free_of "$" repl = true → free_of d repl = true → free_of d s = true →
  free_of d (JS.replaceAll_go pat repl before skip s) = true.
Proof.
  intros Hdollar Hrepl. revert before skip.
  induction s as [|a s IH]; intros before skip Hs; simpl.
  - destruct pat; [|done]. by rewrite getSubstitution_plain.
  - apply free_of_cons in Hs as [Ha Hs]. destruct skip as [|k]; [|by apply IH].
    destruct (JS.starts_with pat (String a s)).
    + rewrite getSubstitution_plain, free_of_app, Hrepl by done. simpl.
      destruct (String.length pat); [|by apply IH].
      apply free_of_cons. split; [done|by apply IH].
    + apply free_of_cons. split; [done|by apply IH].
Qed.

Lemma replaceAll_keeps_free d (pat repl s : string) :
  free_of "$" repl = true → free_of d repl = true → free_of d s = true →
  free_of d (JS.replaceAll pat repl s) = true.
Proof. apply replaceAll_go_keeps_free. Qed.

Section Unchanged.

Variable env : Env.

(** X15: a template without a percent sign is left as it is, whatever
    the video and its placeholder values. *)
Theorem formatString_without_percent v (template : string) :
  free_of "%" template = true → formatString env v template = template.
Proof.
  intros Hfree. unfold formatString, formatLookup, JS.replaceAll. simpl.
  by rewrite !(replaceAll_go_percent_free _ _ _ template Hfree).
Qed.

(** Whatever the title, the text that stands for [%videoTitle%] in
    the table has no slash and no backslash. *)
Lemma formatLookup_videoTitle_free v :
  free_of "/" (value_of (formatLookup env v) "videoTitle") = true
  ∧ free_of "\" (value_of (formatLookup env v) "videoTitle") = true.
Proof.
  rewrite formatLookup_videoTitle. split.
  - apply replaceAll_char_keeps_free; [done..|]. by apply replaceAll_char_free.
  - by apply replaceAll_char_free.
Qed.

(** A title without a dollar sign stands for [%videoTitle%] as a text
    without one. *)
Lemma formatLookup_videoTitle_plain v :
  free_of "$" (title v) = true →
  free_of "$" (value_of (formatLookup env v) "videoTitle") = true.
Proof.
  intros Htitle. rewrite formatLookup_videoTitle.
  repeat (apply replaceAll_keeps_free; [done..|]). exact Htitle.
Qed.

(** X16: in a template that has [%videoTitle%] once and no other
    percent sign, a title without a dollar sign is put in the place of
    [%videoTitle%] after its [" - "], slashes and backslashes are
    replaced by spaces: what the title adds to the path has no slash and
    no backslash, and the texts around it are kept. *)
Theorem formatString_title_without_separators v (pre post : string) :
  free_of "$" (title v) = true →
  free_of "%" pre = true → free_of "%" post = true →
  formatString env v (pre +:+ "%videoTitle%" +:+ post)
  = pre
    +:+ JS.replaceAll "\" " " (JS.replaceAll "/" " " (JS.replaceAll " - " " " (title v)))
    +:+ post
  ∧ free_of "/"
      (JS.replaceAll "\" " " (JS.replaceAll "/" " " (JS.replaceAll " - " " " (title v))))
    = true
  ∧ free_of "\"
      (JS.replaceAll "\" " " (JS.replaceAll "/" " " (JS.replaceAll " - " " " (title v))))
    = true.
Proof.
  intros Htitle Hpre Hpost. split; [|apply (formatLookup_videoTitle_free v)].
  pose proof (formatLookup_videoTitle_plain v Htitle) as Hplain.
  rewrite formatLookup_videoTitle in Hplain.
  unfold formatString, formatLookup. simpl foldl.
  change (pre +:+ "%videoTitle%" +:+ post) with (pre +:+ token "videoTitle" +:+ post).
  assert (Hkept : ∀ p value, free_of "%" p = true → p ≠ "videoTitle" →
            JS.replaceAll (token p) value (pre +:+ token "videoTitle" +:+ post)
            = pre +:+ token "videoTitle" +:+ post).
  { intros p value Hp Hne. by apply replaceAll_go_other_token. }
  rewrite (Hkept "channelTitle"), (Hkept "year"), (Hkept "month"), (Hkept "day"),
    (Hkept "hour"), (Hkept "minute"), (Hkept "second") by done.
  change "%videoTitle%" with (token "videoTitle").
  rewrite replaceAll_text by done. rewrite replaceAll_token by done.
  f_equal. f_equal. apply replaceAll_go_percent_free, Hpost.
Qed.

End Unchanged.

(** ** The post-processing hook *)

(** X18: a post-processing command without a percent sign is run as it
    is written; the operation fails when the run is rejected and when
    the command wrote to its standard error, and returns otherwise. *)
Theorem postProcessing_verbatim env exec v :
  free_of "%" (postProcessingCommand (settings env)) = true →
  postProcessing env exec v
  = match exec (postProcessingCommand (settings env)) with
    | inl error => inl error
    | inr (_, "") => inr ()
    | inr (_, stderr) => inl (Error stderr)
    end.
Proof.
  intros Hfree. unfold postProcessing.
  assert (formatString env v (postProcessingCommand (settings env))
          = postProcessingCommand (settings env)) as ->.
  { unfold formatString, formatLookup, JS.replaceAll. simpl.
    by rewrite !(replaceAll_go_percent_free _ _ _ _ Hfree). }
  destruct (exec _) as [error|[stdout [|a stderr]]]; [done| |].
  - by rewrite bool_decide_eq_false_2 by (intros H; by apply H).
  - by rewrite bool_decide_eq_true_2.
Qed.

(** ** Sizes, again *)

Section MoreSizes.

Variable env : Env.

Lemma absent_parts_zero (fs : gmap string N) (path : nat → string) (l : list nat) :
  0 ≤ sum_over (λ i, absent fs (path i)) l
  ∧ (sum_over (λ i, absent fs (path i)) l = 0 ↔ Forall (λ i, is_Some (fs !! path i)) l).
Proof.
  induction l as [|i l [IHle IHeq]]; simpl.
  - split; [lia|]. split; [by constructor|done].
  - unfold absent at 1 3. destruct (fs !! path i) as [size|] eqn:Hi.
    + split; [lia|]. rewrite Forall_cons, <- IHeq. split.
      * intros Hsum. split; [by rewrite Hi|lia].
      * intros [_ Hsum]. lia.
    + split; [lia|]. split; [lia|].
      intros [[size Hsome] _]%Forall_cons. simpl in Hsome. congruence.
Qed.

(** X19: [fileBytes] is the total size of the part files exactly when
    every part has its file. *)
Theorem fileBytes_total fs v extension :
  fileBytes env fs v extension = existing_total env fs v extension
  ↔ ∀ i, (i < length (videoAttachments v))%nat →
         is_Some (fs !! partFile env v i extension).
Proof.
  rewrite fileBytes_sum.
  rewrite (sum_over_sub _ _ _ _ (λ i, getFileBytes_split fs (partFile env v i extension))).
  fold (existing_total env fs v extension).
  pose proof (absent_parts_zero fs (λ i, partFile env v i extension) (indices v)) as [_ Hzero].
  rewrite Forall_forall in Hzero. split.
  - intros Hsum i Hi. apply Hzero; [lia|]. apply elem_of_seq. lia.
  - intros Hall. assert (sum_over (λ i, absent fs (partFile env v i extension)) (indices v) = 0)
      as ->; [|lia].
    apply Hzero. intros i Hi%elem_of_seq. apply Hall. lia.
Qed.

End MoreSizes.

(** ** The handler of the download progress *)

Lemma no_progress_handler_nil : no_progress_handler [].
Proof. intros url Hin. by apply elem_of_nil in Hin. Qed.

Lemma no_progress_handler_app events more :
  no_progress_handler events → no_progress_handler more →
  no_progress_handler (events ++ more).
Proof. intros H1 H2 url [Hin|Hin]%elem_of_app; [by apply (H1 url)|by apply (H2 url)]. Qed.

(** Closes a goal that the events just added hold no handler. *)
Ltac no_handler :=
  apply no_progress_handler_app; [done|];
  intros ?url Hin; repeat (apply elem_of_cons in Hin as [Hin|Hin]; [discriminate Hin|]);
  by apply elem_of_nil in Hin.

Section Handlers.

Variable env : Env.

(** One iteration keeps the database, and registers no handler when
    the expected size is set. *)
Lemma download_part_no_handler v quality i attachment w :
  is_Some (expectedSize w v) → no_progress_handler (trace w) →
  videoDB (download_part env v quality i attachment w).1 = videoDB w
  ∧ no_progress_handler (trace (download_part env v quality i attachment w).1).
Proof.
  intros [size Hsize] Hnone. destruct w as [fs db tr]. unfold expectedSize in Hsize.
  simpl in *. unfold download_part. run_M.
  destruct (edges _) as [es|]; run_M; [|split; [done|no_handler]].
  destruct (at_index es _) as [edge|]; case_bool_decide; run_M;
    unfold expectedSize; simpl; rewrite ?Hsize; run_M;
    (split; [done|]); rewrite <- ?app_assoc; no_handler.
Qed.

(** So does the loop. *)
Lemma download_parts_no_handler v quality (l : list (nat * string)) w :
  is_Some (expectedSize w v) → no_progress_handler (trace w) →
  videoDB (mapM (λ '(i, attachment), download_part env v quality i attachment) l w).1
  = videoDB w
  ∧ no_progress_handler
      (trace (mapM (λ '(i, attachment), download_part env v quality i attachment) l w).1).
Proof.
  revert w. induction l as [|[i attachment] l IH]; intros w Hsize Hnone; [done|].
  simpl. unfold mbind, M_bind.
  destruct (download_part_no_handler v quality i attachment w Hsize Hnone) as [Hdb Htrace].
  destruct (download_part env v quality i attachment w) as [w1 [e|url]];
    simpl in Hdb, Htrace; [by split|].
  assert (is_Some (expectedSize w1 v)) as Hsize1.
  { unfold expectedSize in *. by rewrite Hdb. }
  destruct (IH w1 Hsize1 Htrace) as [Hdb' Htrace'].
  destruct (mapM (M:=M) _ l w1) as [w2 [e|urls]]; simpl in *; by rewrite <- Hdb.
Qed.

(** The steps before the loop register no handler either: they throw
    and leave the world as it was, or go on to the loop. *)
Lemma download_prelude_no_handler v quality w :
  isDownloaded env w v = false → no_progress_handler (trace w) →
  (∃ e, download env v quality w = (w, inl e))
  ∨ ∃ w1,
      download env v quality w
      = mapM (λ '(i, attachment), download_part env v quality i attachment)
             (imap pair (videoAttachments v)) w1
      ∧ videoDB w1 = videoDB w
      ∧ no_progress_handler (trace w1).
Proof.
  intros Hnot Hnone.
  destruct (mkdir_cases (folderPath env v) w) as [Hmade|[e Hfailed]]; [right|left; exists e];
    unfold download; unfold mbind at 1, M_bind at 1, get at 1;
    rewrite Hnot; unfold mbind at 1, M_bind at 1.
  2:{ by rewrite Hfailed. }
  rewrite Hmade. destruct w as [fs db tr]. simpl in Hnone.
  unfold writeFile, utimes.
  destruct (extras_downloadArtwork (settings env)), (thumbnail v) as [thumb|],
    (extras_saveNfo (settings env)); run_M;
    rewrite ?lookup_insert_eq; run_M; rewrite <- ?app_assoc; simpl;
    eexists; (split; [reflexivity|]); simpl; (split; [reflexivity|]); no_handler.
Qed.

(** X20: when the expected size of a video is set, [download] leaves
    it as it is and registers no handler that would set it. *)
Theorem download_keeps_expectedSize v quality w :
  is_Some (expectedSize w v) → no_progress_handler (trace w) →
  expectedSize (download env v quality w).1 v = expectedSize w v
  ∧ no_progress_handler (trace (download env v quality w).1).
Proof.
  intros Hsize Hnone. destruct (isDownloaded env w v) eqn:Hdone.
  - unfold download, mbind, M_bind, get. simpl. by rewrite Hdone.
  - destruct (download_prelude_no_handler v quality w Hdone Hnone)
      as [[e ->]|(w1 & -> & Hdb & Hnone1)]; [done|].
    assert (is_Some (expectedSize w1 v)) as Hsize1.
    { unfold expectedSize in *. by rewrite Hdb. }
    destruct (download_parts_no_handler v quality (imap pair (videoAttachments v)) w1
                Hsize1 Hnone1) as [Hdb' Htrace].
    split; [|done]. unfold expectedSize. by rewrite Hdb', Hdb.
Qed.

End Handlers.

(** ** The further properties on concrete inputs *)

(** X1 on the sample video: the folder is [Linus]. *)
Lemma filePath_folder_and_last_sample :
  ∃ last,
    fullPath Sample.env0 Sample.one_part
    = folderPath Sample.env0 Sample.one_part +:+ "/" +:+ last
    ∧ free_of "/" last = true
    ∧ filePath Sample.env0 Sample.one_part
      = folderPath Sample.env0 Sample.one_part +:+ "/" +:+ sanitize Sample.env0 last.
Proof.
  apply (filePath_folder_and_last Sample.env0 Sample.one_part).
  vm_compute. reflexivity.
Defined.

(** X2 on a template that is only [%videoTitle%]. *)
Lemma filePath_without_folder_sample :
  folderPath Cases.env_flat Sample.one_part = ""
  ∧ filePath Cases.env_flat Sample.one_part
    = "/" +:+ sanitize Cases.env_flat (fullPath Cases.env_flat Sample.one_part).
Proof.
  apply (filePath_without_folder Cases.env_flat Sample.one_part).
  vm_compute. reflexivity.
Defined.

Example filePath_flat_template :
  filePath Cases.env_flat Sample.one_part = "/Ep 1 Intro".
Proof. vm_compute. reflexivity. Qed.

(** X3 on the two parts of a video. *)
Lemma partFile_distinct_sample :
  (partFile Sample.env0 Sample.two_parts 0 "mp4"
   = partFile Sample.env0 Sample.two_parts 1 "mp4" → 0%nat = 1%nat)
  ∧ partFile Sample.env0 Sample.two_parts 0 "partial"
    ≠ partFile Sample.env0 Sample.two_parts 1 "mp4".
Proof.
  apply (partFile_distinct Sample.env0 Sample.two_parts 0 1 "mp4"); simpl; lia.
Defined.

(** X5 on a video without attachments, nothing being on disk. *)
Lemma download_no_attachments_sample :
  isMuxed Sample.env_all Sample.world_empty Cases.no_parts = true
  ∧ download Sample.env_all Cases.no_parts "720" Sample.world_empty
    = (Sample.world_empty,
       inl (Error ("Attempting to download " +:+ JS.dquote +:+ title Cases.no_parts
                   +:+ JS.dquote +:+ " video already downloaded!"))).
Proof.
  apply (download_no_attachments Sample.env_all Cases.no_parts "720" Sample.world_empty);
    reflexivity.
Defined.

(** X6 on the labels 1080, 720 and 480. *)
Lemma availableQualities_sorted_sample :
  availableQualities Sample.env0 (Sample.ticket None)
  ≡ₚ quality_names (Sample.ticket None)
  ∧ StronglySorted (descending Sample.env0)
      (availableQualities Sample.env0 (Sample.ticket None)).
Proof.
  apply (availableQualities_sorted Sample.env0 (Sample.ticket None)).
  repeat constructor; eexists; vm_compute; reflexivity.
Defined.

(** X8 on two edges and the random number one half. *)
Lemma picked_edge_in_ticket_sample :
  ∃ edge,
    at_index Cases.two_edges
      (Qfloor ((1 # 2) * inject_Z (Z.of_nat (length Cases.two_edges)))) = Some edge
    ∧ edge ∈ Cases.two_edges.
Proof.
  apply (picked_edge_in_ticket Cases.two_edges (1 # 2)).
  - vm_compute. discriminate.
  - vm_compute. reflexivity.
  - discriminate.
Defined.

(** X9 with an override edge. *)
Lemma download_part_host_sample :
  ∃ w' host,
    download_part Cases.env_override Sample.one_part "720" 0 "a1" Sample.world_empty
    = (w', inr ("https://" +:+ host
                +:+ request_path Cases.env_override
                      (cdn_delivery Cases.env_override "download" "a1") "720"))
    ∧ (floatplane_downloadEdge (settings Cases.env_override) ≠ "" →
       host = floatplane_downloadEdge (settings Cases.env_override))
    ∧ (floatplane_downloadEdge (settings Cases.env_override) = "" →
       ∃ edge, edge ∈ Cases.two_edges ∧ host = hostname edge).
Proof.
  apply (download_part_host Cases.env_override Sample.one_part "720" 0 "a1"
           Sample.world_empty Cases.two_edges).
  - reflexivity.
  - discriminate.
  - vm_compute. discriminate.
  - vm_compute. reflexivity.
Defined.

Example download_part_override_url :
  snd (download_part Cases.env_override Sample.one_part "720" 0 "a1" Sample.world_empty)
  = inr "https://edge.override.example/video/720.mp4?token=tok".
Proof. vm_compute. reflexivity. Qed.

Lemma env0_deliverable i attachment : deliverable Sample.env0 i attachment.
Proof.
  split; [|split].
  - eexists. split; [reflexivity|discriminate].
  - vm_compute. discriminate.
  - vm_compute. reflexivity.
Defined.

(** On an empty disk the folder [Linus] can be made. *)
Lemma folder_Linus_can_be_made :
  folder_can_be_made (files Sample.world_empty) "Linus".
Proof. split; [discriminate|]. repeat constructor. Defined.

(** X10 on a video of two parts, nothing being on disk. *)
Lemma download_starts_every_part_sample :
  ∃ w' urls,
    download Sample.env0 Sample.two_parts "720" Sample.world_empty = (w', inr urls)
    ∧ length urls = length (videoAttachments Sample.two_parts)
    ∧ Mkdir (folderPath Sample.env0 Sample.two_parts) ∈ trace w'
    ∧ ∀ i url, urls !! i = Some url →
               StreamToFile url (partFile Sample.env0 Sample.two_parts i "partial")
               ∈ trace w'.
Proof.
  apply (download_starts_every_part Sample.env0 Sample.two_parts "720" Sample.world_empty).
  - vm_compute. reflexivity.
  - apply folder_Linus_can_be_made.
  - intros i attachment _. apply env0_deliverable.
Defined.

(** X11 on a video of two parts whose second ticket has no edge set. *)
Lemma download_stops_without_edges_sample :
  ∃ w',
    download Cases.env_second_ticket_bare Sample.two_parts "720" Sample.world_empty
    = (w', inl (Error "No edges found for video"))
    ∧ Mkdir (folderPath Cases.env_second_ticket_bare Sample.two_parts) ∈ trace w'
    ∧ ∀ i, (i < length ["a1"])%nat →
           ∃ url, StreamToFile url
                    (partFile Cases.env_second_ticket_bare Sample.two_parts i "partial")
                  ∈ trace w'.
Proof.
  apply (download_stops_without_edges Cases.env_second_ticket_bare Sample.two_parts "720"
           Sample.world_empty ["a1"] "a2" []).
  - vm_compute. reflexivity.
  - apply folder_Linus_can_be_made.
  - reflexivity.
  - intros [|i] a Ha; [|done]. injection Ha as <-.
    split; [|split].
    + eexists. split; [reflexivity|discriminate].
    + vm_compute. discriminate.
    + vm_compute. reflexivity.
  - reflexivity.
Defined.

(** X12 on a video whose [.partial] file is missing. *)
Lemma muxffmpegMetadata_rejected_sample :
  (∃ e, Some e ∈ [Some (Error "Command failed: No such file or directory")]
        ∧ muxffmpegMetadata Sample.env0 Sample.one_part Sample.world_empty
          = (Cases.world_failed_run, inl e))
  ∧ expectedSize Cases.world_failed_run Sample.one_part
    = expectedSize Sample.world_empty Sample.one_part
  ∧ trace Cases.world_failed_run
    = trace Sample.world_empty ++ transcoder_events Sample.env0 Sample.one_part.
Proof.
  apply (muxffmpegMetadata_rejected Sample.env0 Sample.one_part Sample.world_empty
           Cases.world_failed_run
           [Some (Error "Command failed: No such file or directory")]).
  - vm_compute. reflexivity.
  - discriminate.
Defined.

(** X13 on a video of two downloaded parts. *)
Lemma muxffmpegMetadata_marks_completed_sample :
  MarkVideoCompleted (guid Sample.two_parts) (getTime (releaseDate Sample.two_parts))
  ∈ trace (muxffmpegMetadata Sample.env0 Sample.two_parts Cases.world_two_partials).1
  ∧ expectedSize (muxffmpegMetadata Sample.env0 Sample.two_parts Cases.world_two_partials).1
      Sample.two_parts
    = Some (fileBytes Sample.env0 (files Cases.world_transcoded) Sample.two_parts "mp4").
Proof.
  apply (muxffmpegMetadata_marks_completed Sample.env0 Sample.two_parts
           Cases.world_two_partials Cases.world_transcoded [None; None]).
  - reflexivity.
  - vm_compute. reflexivity.
  - reflexivity.
Defined.


Example muxffmpegMetadata_done_sizes :
  expectedSize Cases.world_finalised Sample.two_parts = Some 800
  ∧ fileBytes Sample.env0 (files Cases.world_finalised) Sample.two_parts "partial" = -2.
Proof. split; vm_compute; reflexivity. Qed.

(** X15 on a path without placeholders. *)
Lemma formatString_without_percent_sample :
  formatString Sample.env0 Sample.one_part "videos/100 - plain.mp4"
  = "videos/100 - plain.mp4".
Proof.
  apply (formatString_without_percent Sample.env0 Sample.one_part "videos/100 - plain.mp4").
  reflexivity.
Defined.

(** With a template that has no slash the folder path is empty, the
    folder cannot be made and [download] stops there. *)
Example download_without_folder :
  folderPath Cases.env_flat Sample.one_part = ""
  ∧ download Cases.env_flat Sample.one_part "720" Sample.world_empty
    = (Sample.world_empty, inl (enoent "mkdir" "")).
Proof. split; vm_compute; reflexivity. Qed.

(** X16 on a title with a slash, a backslash and a [" - "]. *)
Lemma formatString_title_without_separators_sample :
  formatString Sample.env0 Cases.slash_title_video ("videos/" +:+ "%videoTitle%" +:+ ".mp4")
  = "videos/AC DC Live 2021.mp4".
Proof.
  exact (proj1 (formatString_title_without_separators Sample.env0 Cases.slash_title_video
                  "videos/" ".mp4" eq_refl eq_refl eq_refl)).
Defined.

(** A title with a dollar sign can bring a slash in: the part of the
    template before [%videoTitle%] is put where the title has a dollar
    sign and a backquote. *)
Example formatString_backquote_title :
  formatString Sample.env0 Cases.backquote_title_video "videos/%videoTitle%.mp4"
  = "videos/Avideos/B.mp4".
Proof. vm_compute. reflexivity. Qed.

(** X18 on a command that succeeds in silence. *)
Lemma postProcessing_verbatim_sample :
  postProcessing Cases.env_flat Cases.quiet_shell Sample.one_part = inr ().
Proof.
  exact (postProcessing_verbatim Cases.env_flat Cases.quiet_shell Sample.one_part eq_refl).
Defined.

(** A command that exits with status 0 and writes to its standard
    error fails. *)
Example postProcessing_stderr :
  postProcessing Cases.env_flat (λ _, inr ("", "warning")) Sample.one_part
  = inl (Error "warning").
Proof. vm_compute. reflexivity. Qed.

(** X20 on a video whose expected size is known and that is not yet
    downloaded. *)
Lemma download_keeps_expectedSize_sample :
  expectedSize (download Sample.env0 Sample.one_part "720" Cases.world_size_known).1
    Sample.one_part
  = expectedSize Cases.world_size_known Sample.one_part
  ∧ no_progress_handler
      (trace (download Sample.env0 Sample.one_part "720" Cases.world_size_known).1).
Proof.
  apply (download_keeps_expectedSize Sample.env0 Sample.one_part "720"
           Cases.world_size_known).
  - eexists. vm_compute. reflexivity.
  - apply no_progress_handler_nil.
Defined.

Example download_size_known_requests :
  isDownloaded Sample.env0 Cases.world_size_known Sample.one_part = false
  ∧ snd (download Sample.env0 Sample.one_part "720" Cases.world_size_known)
    = inr ["https://edge01.example/video/720.mp4?token=tok"].
Proof. split; vm_compute; reflexivity. Qed.
